(** * Verification of [back_end/Tracker/vanilla_tracker.py]

    A shallow embedding of the ROI tracker of the Stryker Pinpoint
    pipeline: the frame splitter [stryker], the rectangle-to-slice
    conversion [box_to_slice], the class [tracker] wrapping OpenCV's
    MultiTracker, the record builder [convert_to_dict], the appending
    writer [convert_to_JSON_file] and the driver loop under
    [if __name__ == '__main__'].

    Python floats are IEEE binary64 values: they are modelled by Rocq's
    primitive [float].  Python lists are [list]s, a [dict] is an
    association list in insertion order (the order [json.dumps] emits),
    exceptions are the [Raise] branch of [result], and the file
    [Output.json] is the text it holds, one character per byte (what
    [json.dumps] writes is ASCII). *)

From Stdlib Require Import ZArith List String Ascii Bool Lia PeanoNat.
From Stdlib Require Import PrimFloat FloatOps SpecFloat.
From Stdlib Require Import DecimalString DecimalNat DecimalZ.
From Stdlib Require QArith Qround.
Import ListNotations.

Set Implicit Arguments.
Set Warnings "-register-all,-inexact-float".
Open Scope string_scope.

(* ================================================================= *)
(** ** Exceptions *)

Inductive exn : Type :=
| ValueError      (* int(nan) *)
| OverflowError   (* int(inf) *)
| TypeError       (* json.dumps of a set, indexing None *)
| OSError         (* seek before the start of the file *)
| CvError.        (* raised inside OpenCV *)

Inductive result (A : Type) : Type :=
| Ok (a : A)
| Raise (e : exn).

Arguments Ok {A} a.
Arguments Raise {A} e.

Definition bind {A B} (r : result A) (k : A -> result B) : result B :=
  match r with
  | Ok a => k a
  | Raise e => Raise e
  end.

Declare Scope py_scope.
Delimit Scope py_scope with py.
Notation "x <- c1 ;; c2" := (bind c1 (fun x => c2))
  (at level 61, c1 at next level, right associativity) : py_scope.
Notation "' pat <- c1 ;; c2" := (bind c1 (fun x => match x with pat => c2 end))
  (at level 61, pat pattern, c1 at next level, right associativity) : py_scope.

Definition is_ok {A} (r : result A) : bool :=
  match r with Ok _ => true | Raise _ => false end.

(** [for x in xs: acc = f(acc, x)], stopping at the first exception. *)
Fixpoint for_each {A S} (f : S -> A -> result S) (xs : list A) (s : S) : result S :=
  match xs with
  | [] => Ok s
  | x :: xs' => bind (f s x) (for_each f xs')
  end.

(** [enumerate(xs)]. *)
Fixpoint enumerate_from {A} (k : nat) (xs : list A) : list (nat * A) :=
  match xs with
  | [] => []
  | x :: xs' => (k, x) :: enumerate_from (S k) xs'
  end.

Definition enumerate {A} (xs : list A) : list (nat * A) := enumerate_from 0 xs.

(* ================================================================= *)
(** ** Python floats *)

Module PyFloat.

(** [int(x)] on a float: truncation toward zero; [ValueError] on NaN and
    [OverflowError] on an infinity.  A finite binary64 value is
    [(-1)^s * m * 2^e]; shifting the mantissa left by [e] (right when [e]
    is negative) drops the fractional bits of the magnitude. *)
Definition int (x : float) : result Z :=
  match Prim2SF x with
  | S754_zero _ => Ok 0%Z
  | S754_infinity _ => Raise OverflowError
  | S754_nan => Raise ValueError
  | S754_finite s m e =>
      let a := Z.shiftl (Zpos m) e in
      Ok (if s then (- a)%Z else a)
  end.

(** [np.isnan(x)]. *)
Definition isnan (x : float) : bool := PrimFloat.is_nan x.

End PyFloat.

(* ================================================================= *)
(** ** Python slices and NumPy basic indexing *)

(** [slice(start, stop)] with step [None]. *)
Record slice : Type := mkSlice { start : option Z; stop : option Z }.

(** A bound of a slice on a sequence of length [n]: a negative bound
    counts from the end, and the result is clamped to [0 .. n]. *)
Definition clamp_index (n : nat) (i : Z) : nat :=
  let j := if (i <? 0)%Z then (i + Z.of_nat n)%Z else i in
  Z.to_nat (Z.max 0 (Z.min (Z.of_nat n) j)).

(** [s.indices(n)]: the half-open range [lo, hi) the slice selects. *)
Definition slice_indices (s : slice) (n : nat) : nat * nat :=
  (match start s with None => 0 | Some a => clamp_index n a end,
   match stop s with None => n | Some b => clamp_index n b end).

(** [l[s]]. *)
Definition getslice {A} (s : slice) (l : list A) : list A :=
  let '(lo, hi) := slice_indices s (List.length l) in
  firstn (hi - lo) (skipn lo l).

(** A frame is an array of shape (h, w) or (h, w, c): a list of rows of
    pixels, a pixel being whatever the last axis holds. *)
Definition frame (A : Type) : Type := list (list A).

(** [frame[(rows, cols)]]: basic indexing by a pair of slices. *)
Definition index2 {A} (ix : slice * slice) (f : frame A) : frame A :=
  map (getslice (snd ix)) (getslice (fst ix) f).

(** [f[r][c]], [None] when out of range. *)
Definition pixel {A} (f : frame A) (r c : nat) : option A :=
  match nth_error f r with
  | Some row => nth_error row c
  | None => None
  end.

(* ================================================================= *)
(** ** Frame splitter *)

Definition VIS : slice * slice :=
  (mkSlice None (Some 360%Z), mkSlice None (Some 480%Z)).

Definition INFRA : slice * slice :=
  (mkSlice (Some 360%Z) (Some 720%Z), snd VIS).

Definition stryker {A} (f : frame A) : frame A * frame A :=
  (index2 VIS f, index2 INFRA f).

(* ================================================================= *)
(** ** Rectangles *)

(** A bounding box [[left, top, width, height]]. *)
Record box : Type := mkBox { left : float; top : float; width : float; height : float }.

(** [list(roi)]. *)
Definition box_list (b : box) : list float := [left b; top b; width b; height b].

Definition box_to_slice (b : box) : result (slice * slice) :=
  (r0 <- PyFloat.int (top b) ;;
   r1 <- PyFloat.int (top b + height b) ;;
   c0 <- PyFloat.int (left b) ;;
   c1 <- PyFloat.int (left b + width b) ;;
   Ok (mkSlice (Some r0) (Some r1), mkSlice (Some c0) (Some c1)))%py.

(** The conversion as the specification words it: every one of the four
    coordinates is truncated on its own, and the range ends at the sum
    of the truncated origin and the truncated extent. *)
Definition spec_box_to_slice (b : box) : result (slice * slice) :=
  (t <- PyFloat.int (top b) ;;
   h <- PyFloat.int (height b) ;;
   l <- PyFloat.int (left b) ;;
   w <- PyFloat.int (width b) ;;
   Ok (mkSlice (Some t) (Some (t + h)%Z), mkSlice (Some l) (Some (l + w)%Z)))%py.

(* ================================================================= *)
(** ** Python values, dictionaries and keys *)

(** The values a record can hold.  [PSet] is the set literal of the
    placeholder the dictionary is created with; sets are not JSON
    serialisable. *)
Inductive pyval : Type :=
| PInt (z : Z)
| PFloat (x : float)
| PList (l : list pyval)
| PSet (l : list string)
| PDict (d : list (string * pyval)).

(** A [dict] with string keys, in insertion order. *)
Definition pydict : Type := list (string * pyval).

(** [d[k] = v]: an existing key keeps its position, a new key goes last. *)
Fixpoint dict_set (k : string) (v : pyval) (d : pydict) : pydict :=
  match d with
  | [] => [(k, v)]
  | (k', v') :: d' =>
      if String.eqb k' k then (k, v) :: d' else (k', v') :: dict_set k v d'
  end.

(** [d.get(k)]. *)
Fixpoint dict_get (k : string) (d : pydict) : option pyval :=
  match d with
  | [] => None
  | (k', v') :: d' => if String.eqb k' k then Some v' else dict_get k d'
  end.

(** [str(i)] for a non-negative index and for an integer. *)
Definition str_nat (i : nat) : string := NilEmpty.string_of_uint (Nat.to_uint i).
Definition str_Z (z : Z) : string := NilZero.string_of_int (Z.to_int z).

(** The f-strings [f'roi{i}'], [f'intensity{i}'], [f'spread_intensity{i}']. *)
Definition roi_key (i : nat) : string := "roi" ++ str_nat i.
Definition intensity_key (i : nat) : string := "intensity" ++ str_nat i.
Definition spread_key (i : nat) : string := "spread_intensity" ++ str_nat i.
Definition frame_number_key : string := "frame_number".

(* ================================================================= *)
(** ** Result recorder: building the record *)

(** The dictionary literal [convert_to_dict] starts from. *)
Definition initial_dictionary : pydict :=
  [(frame_number_key, PDict [("roi"%string, PSet ["intensity"; "spread_intensity"]%string)])].

(** The sentinel written in place of a NaN measurement. *)
Definition sentinel : pyval := PInt (-1).

(** The body of the innermost loop, at the values the three loop
    headers have bound: [i] is the index of the innermost [enumerate],
    which shadows the two outer ones.  [np.isnan] does not raise on a
    float, so the [except] branch is not reachable. *)
Definition dict_body (roi_value : box) (intensity_value : float)
  (i : nat) (spread_value : float) (d : pydict) : pydict :=
  let d := dict_set (roi_key i) (PList (map PFloat (box_list roi_value))) d in
  if PyFloat.isnan intensity_value || PyFloat.isnan spread_value then
    let d := dict_set (intensity_key i) sentinel d in
    dict_set (spread_key i) sentinel d
  else
    let d := dict_set (intensity_key i) (PFloat intensity_value) d in
    dict_set (spread_key i) (PFloat spread_value) d.

Definition convert_to_dict (rois : list box) (agg_intensities spread_intensities : list float)
  : pydict :=
  fold_left (fun d '(_, roi_value) =>
    fold_left (fun d '(_, intensity_value) =>
      fold_left (fun d '(i, spread_value) =>
        dict_body roi_value intensity_value i spread_value d)
        (enumerate spread_intensities) d)
      (enumerate agg_intensities) d)
    (enumerate rois) initial_dictionary.

(** The index-aligned record: the three lists zipped index by index,
    each region contributing its own rectangle, aggregate and spread,
    each value sanitised on its own. *)
Fixpoint spec_aligned_from (i : nat) (rois : list box) (aggs spreads : list float)
  (d : pydict) : pydict :=
  match rois, aggs, spreads with
  | r :: rois', a :: aggs', s :: spreads' =>
      let d := dict_set (roi_key i) (PList (map PFloat (box_list r))) d in
      let d := dict_set (intensity_key i)
                 (if PyFloat.isnan a then sentinel else PFloat a) d in
      let d := dict_set (spread_key i)
                 (if PyFloat.isnan s then sentinel else PFloat s) d in
      spec_aligned_from (S i) rois' aggs' spreads' d
  | _, _, _ => d
  end.

(** Whether a value of a record is NaN, or null: the model has no
    [None] value, so only a NaN float qualifies. *)
Definition is_nan_value (v : pyval) : bool :=
  match v with
  | PFloat x => PyFloat.isnan x
  | _ => false
  end.

(* ================================================================= *)
(** ** [json.dumps] *)

Definition LF : string := String "010"%char EmptyString.
Definition CR : string := String "013"%char EmptyString.

Fixpoint join (sep : string) (l : list string) : string :=
  match l with
  | [] => ""
  | [s] => s
  | s :: l' => s ++ sep ++ join sep l'
  end.

(** A key between double quotes, with the two escapes that can occur in
    printable ASCII. *)
Fixpoint escape (s : string) : string :=
  match s with
  | EmptyString => ""
  | String c s' =>
      if Ascii.eqb c "034"%char then String "092"%char (String c (escape s'))
      else if Ascii.eqb c "092"%char then String "092"%char (String c (escape s'))
      else String c (escape s')
  end.

Definition quote (s : string) : string := String "034"%char (escape s ++ String "034"%char "").

Section Dumps.

(** Python's [float.__repr__] on a finite float (the shortest decimal
    string that reads back as the same float); a builtin, taken as
    given. *)
Variable float_repr : float -> string.

Definition dumps_float (x : float) : string :=
  match Prim2SF x with
  | S754_nan => "NaN"
  | S754_infinity false => "Infinity"
  | S754_infinity true => "-Infinity"
  | _ => float_repr x
  end.

(** [json.dumps(v)] with the default separators; [TypeError] on a set. *)
Fixpoint dumps (v : pyval) : result string :=
  match v with
  | PInt z => Ok (str_Z z)
  | PFloat x => Ok (dumps_float x)
  | PList l =>
      bind ((fix items (l : list pyval) : result (list string) :=
               match l with
               | [] => Ok []
               | x :: l' =>
                   bind (dumps x) (fun s => bind (items l') (fun r => Ok (s :: r)))
               end) l)
           (fun ss => Ok ("[" ++ join ", " ss ++ "]"))
  | PSet _ => Raise TypeError
  | PDict d =>
      bind ((fix items (d : list (string * pyval)) : result (list string) :=
               match d with
               | [] => Ok []
               | (k, x) :: d' =>
                   bind (dumps x) (fun s =>
                   bind (items d') (fun r => Ok ((quote k ++ ": " ++ s) :: r)))
               end) d)
           (fun ss => Ok ("{" ++ join ", " ss ++ "}"))
  end.

End Dumps.

(** A [float_repr] for worked examples: it agrees with Python's on the
    integer-valued floats of magnitude below 1e16 ([30.0], [100.0]). *)
Definition float_repr_integral (x : float) : string :=
  match PyFloat.int x with
  | Ok z => str_Z z ++ ".0"
  | Raise _ => "nan"
  end.

(* ================================================================= *)
(** ** Region tracker *)

Section Tracker.

(** What OpenCV is handed as the visible-light image, and the pixels of
    the infrared frame. *)
Variable V : Type.
Variable A : Type.

(** One single-object tracker of OpenCV ([cv2.TrackerMedianFlow_create()]),
    an external capability: [trk_init] is its initialisation on an image
    and a rectangle, [trk_update] moves the rectangle on the next image
    and tells whether the object was found.  Either may raise. *)
Variable handle : Type.
Variable trk_init : V -> box -> result handle.
Variable trk_update : handle -> V -> box -> result (bool * box * handle).

(** [cv2.MultiTracker]: the trackers and their rectangles, in the order
    they were added.  [add] appends one tracker and its rectangle;
    [update] updates every tracker on its own rectangle, and its flag is
    the conjunction of theirs. *)
Definition MultiTracker : Type := list (handle * box).

Definition MultiTracker_create : MultiTracker := [].

Definition MultiTracker_add (mt : MultiTracker) (image : V) (b : box) : result MultiTracker :=
  (h <- trk_init image b ;; Ok (mt ++ [(h, b)])%list)%py.

Fixpoint MultiTracker_update (mt : MultiTracker) (image : V)
  : result (bool * list box * MultiTracker) :=
  match mt with
  | [] => Ok (true, [], [])
  | (h, b) :: mt' =>
      ('(found, b', h') <- trk_update h image b ;;
       '(succ, boxes, mt'') <- MultiTracker_update mt' image ;;
       Ok (found && succ, b' :: boxes, (h', b') :: mt''))%py
  end.

(** An instance of the class [tracker]. *)
Record tracker : Type := mkTracker {
  tracker_multi : MultiTracker;
  agg_func : frame A -> float;
  spread_func : option (frame A -> float)
}.

(** [tracker.__init__(rois, init_vis, agg_func=..., spread_func=...)]. *)
Definition tracker_init (rois : list box) (init_vis : V)
  (agg : frame A -> float) (spread : option (frame A -> float)) : result tracker :=
  (mt <- for_each (fun mt roi => MultiTracker_add mt init_vis roi) rois MultiTracker_create ;;
   Ok (mkTracker mt agg spread))%py.

Definition warning : string := "[Warning]: at least one ROI was not detected".

(** What [update] returns: a pair when [spread_func] is [None], a triple
    otherwise. *)
Definition update_output : Type := list box * list float * option (list float).

(** [tracker.update(vis, infra)], threading the object and standard
    output. *)
Definition tracker_update (self : tracker) (vis : V) (infra : frame A) (stdout : list string)
  : result (tracker * list string * update_output) :=
  ('(succ, rois, mt) <- MultiTracker_update (tracker_multi self) vis ;;
   let self' := mkTracker mt (agg_func self) (spread_func self) in
   let stdout := if negb succ then (stdout ++ [warning])%list else stdout in
   match spread_func self with
   | None =>
       agg_intensities <-
         for_each (fun aggs roi =>
                     ix <- box_to_slice roi ;;
                     Ok (aggs ++ [agg_func self (index2 ix infra)])%list) rois [] ;;
       Ok (self', stdout, (rois, agg_intensities, None))
   | Some spread =>
       '(agg_intensities, spread_intensities) <-
         for_each (fun '(aggs, spreads) roi =>
                     ix <- box_to_slice roi ;;
                     let aggs := (aggs ++ [agg_func self (index2 ix infra)])%list in
                     ix' <- box_to_slice roi ;;
                     Ok (aggs, (spreads ++ [spread (index2 ix' infra)])%list)) rois ([], []) ;;
       Ok (self', stdout, (rois, agg_intensities, Some spread_intensities))
   end)%py.

End Tracker.

(* ================================================================= *)
(** ** Result recorder: the output file *)

Section Recorder.

Variable float_repr : float -> string.

(** The line separator a text-mode file writes for ["\n"] ([os.linesep]):
    one byte on POSIX, carriage return and line feed on Windows. *)
Variable linesep : string.

Fixpoint translate_newlines (s : string) : string :=
  match s with
  | EmptyString => ""
  | String c s' =>
      if Ascii.eqb c "010"%char then linesep ++ translate_newlines s'
      else String c (translate_newlines s')
  end.

(** [open(name, "a")] then [f.write(s)]: the file grows at its end. *)
Definition append_text (file s : string) : string := file ++ translate_newlines s.

Definition convert_to_JSON_file (JSONDictionary : pydict) (file : string) : result string :=
  (s <- dumps float_repr (PDict JSONDictionary) ;;
   Ok (append_text file (s ++ "," ++ LF)))%py.

(** [open(name, 'rb+')], [f.seek(-k, os.SEEK_END)], [f.truncate()]: the
    last [k] bytes go; seeking before the start of the file raises. *)
Definition seek_end_truncate (k : nat) (file : string) : result string :=
  if Nat.ltb (String.length file) k then Raise OSError
  else Ok (substring 0 (String.length file - k) file).

End Recorder.

(* ================================================================= *)
(** ** The driver *)

Section Main.

Variable A : Type.
Variable handle : Type.
Variable trk_init : frame A -> box -> result handle.
Variable trk_update : handle -> frame A -> box -> result (bool * box * handle).

(** [np.median] and [np.std]. *)
Variable np_median : frame A -> float.
Variable np_std : frame A -> float.

Variable float_repr : float -> string.
Variable linesep : string.

Definition rois0 : list box := [mkBox 10 100 30 50; mkBox 100 100 50 30].

Definition frames_to_process : nat := 500.

(** The state the loop works on: the capture (the frames still to be
    read), the tracker object, the counter, [Output.json] and standard
    output. *)
Record loop_state : Type := mkLoop {
  cap : list (frame A);
  vanilla : tracker A handle;
  frame_counter : nat;
  output_json : string;
  stdout : list string
}.

(** One iteration of [for ii in range(frames_to_process)].  [cap.read()]
    yields [None] for the frame once the video is exhausted, which
    [stryker] cannot index; [update] returning a pair cannot be unpacked
    into three names.  Drawing and display are left out. *)
Definition loop_body (st : loop_state) : result loop_state :=
  match cap st with
  | [] => Raise TypeError
  | f :: cap' =>
      let '(vis, infra) := stryker f in
      ('(vanilla', stdout', out) <-
         tracker_update trk_update (vanilla st) vis infra (stdout st) ;;
       match out with
       | (rois, agg_intensities, Some spread_intensities) =>
           let frame_counter := frame_counter st + 1 in
           let JSONDictionary := convert_to_dict rois agg_intensities spread_intensities in
           let JSONDictionary :=
             dict_set frame_number_key (PInt (Z.of_nat frame_counter)) JSONDictionary in
           file <- convert_to_JSON_file float_repr linesep JSONDictionary (output_json st) ;;
           Ok (mkLoop cap' vanilla' frame_counter file stdout')
       | (_, _, None) => Raise ValueError
       end)%py
  end.

Fixpoint loop (n : nat) (st : loop_state) : result loop_state :=
  match n with
  | O => Ok st
  | S n' => bind (loop_body st) (loop n')
  end.

(** The script, for a video given as the frames [cap.read()] returns
    from the offset on, and a number of frames to process. *)
Definition main_for (n : nat) (video : list (frame A)) : result loop_state :=
  match video with
  | [] => Raise TypeError
  | frame0 :: video' =>
      let '(vis, infra) := stryker frame0 in
      (trk <- tracker_init trk_init rois0 vis np_median (Some np_std) ;;
       let file := append_text linesep "" "[" in
       st <- loop n (mkLoop video' trk 0 file []) ;;
       file <- seek_end_truncate 3 (output_json st) ;;
       let file := append_text linesep file "]" in
       Ok (mkLoop (cap st) (vanilla st) (frame_counter st) file (stdout st)))%py
  end.

Definition main : list (frame A) -> result loop_state := main_for frames_to_process.

End Main.

(* ================================================================= *)
(** ** Reading JSON back

    The consumer's side: a reader of the JSON grammar (RFC 8259), against
    which the file the driver leaves behind is judged.  Numbers are kept
    as their tokens. *)

Inductive json : Type :=
| JNum (tok : string)
| JStr (s : string)
| JArr (l : list json)
| JObj (l : list (string * json)).

Definition is_ws (c : ascii) : bool :=
  Ascii.eqb c " "%char || Ascii.eqb c "010"%char || Ascii.eqb c "013"%char
  || Ascii.eqb c "009"%char.

Definition is_digit (c : ascii) : bool :=
  let n := nat_of_ascii c in (48 <=? n)%nat && (n <=? 57)%nat.

Fixpoint skip_ws (s : string) : string :=
  match s with
  | String c s' => if is_ws c then skip_ws s' else s
  | EmptyString => s
  end.

(** The characters of a string literal up to its closing quote. *)
Fixpoint read_string (s : string) : option (string * string) :=
  match s with
  | EmptyString => None
  | String c s' =>
      if Ascii.eqb c "034"%char then Some ("", s')
      else if Ascii.eqb c "092"%char then
        match s' with
        | String e s'' =>
            match read_string s'' with
            | Some (body, rest) => Some (String e body, rest)
            | None => None
            end
        | EmptyString => None
        end
      else
        match read_string s' with
        | Some (body, rest) => Some (String c body, rest)
        | None => None
        end
  end.

Fixpoint read_digits (s : string) : string * string :=
  match s with
  | String c s' =>
      if is_digit c then let '(d, rest) := read_digits s' in (String c d, rest)
      else ("", s)
  | EmptyString => ("", s)
  end.

(** [-? int frac? exp?], with no leading zero in [int]. *)
Definition read_number (s : string) : option (string * string) :=
  let '(sign, s1) :=
    match s with
    | String "-"%char s' => ("-", s')
    | _ => ("", s)
    end in
  let '(int_part, s2) := read_digits s1 in
  match int_part with
  | EmptyString => None
  | String "0"%char (String _ _) => None
  | _ =>
      match
        match s2 with
        | String "."%char s3 =>
            let '(frac, s4) := read_digits s3 in
            match frac with
            | EmptyString => None
            | _ => Some ("." ++ frac, s4)
            end
        | _ => Some ("", s2)
        end
      with
      | None => None
      | Some (frac, s5) =>
          match
            match s5 with
            | String c s6 =>
                if Ascii.eqb c "e"%char || Ascii.eqb c "E"%char then
                  let '(esign, s7) :=
                    match s6 with
                    | String "+"%char s' => ("+", s')
                    | String "-"%char s' => ("-", s')
                    | _ => ("", s6)
                    end in
                  let '(ex, s8) := read_digits s7 in
                  match ex with
                  | EmptyString => None
                  | _ => Some (String c (esign ++ ex), s8)
                  end
                else Some ("", s5)
            | EmptyString => Some ("", s5)
            end
          with
          | None => None
          | Some (ex, rest) => Some (sign ++ int_part ++ frac ++ ex, rest)
          end
      end
  end.

Fixpoint read_value (fuel : nat) (s : string) : option (json * string) :=
  match fuel with
  | O => None
  | S fuel' =>
      match skip_ws s with
      | String "["%char s1 =>
          match skip_ws s1 with
          | String "]"%char s2 => Some (JArr [], s2)
          | _ =>
              match read_elements fuel' s1 with
              | Some (l, rest) => Some (JArr l, rest)
              | None => None
              end
          end
      | String "{"%char s1 =>
          match skip_ws s1 with
          | String "}"%char s2 => Some (JObj [], s2)
          | _ =>
              match read_members fuel' s1 with
              | Some (l, rest) => Some (JObj l, rest)
              | None => None
              end
          end
      | String "034"%char s1 =>
          match read_string s1 with
          | Some (body, rest) => Some (JStr body, rest)
          | None => None
          end
      | s0 =>
          match read_number s0 with
          | Some (tok, rest) => Some (JNum tok, rest)
          | None => None
          end
      end
  end

with read_elements (fuel : nat) (s : string) : option (list json * string) :=
  match fuel with
  | O => None
  | S fuel' =>
      match read_value fuel' s with
      | None => None
      | Some (v, s1) =>
          match skip_ws s1 with
          | String "]"%char s2 => Some ([v], s2)
          | String ","%char s2 =>
              match read_elements fuel' s2 with
              | Some (l, rest) => Some (v :: l, rest)
              | None => None
              end
          | _ => None
          end
      end
  end

with read_members (fuel : nat) (s : string) : option (list (string * json) * string) :=
  match fuel with
  | O => None
  | S fuel' =>
      match skip_ws s with
      | String "034"%char s1 =>
          match read_string s1 with
          | None => None
          | Some (k, s2) =>
              match skip_ws s2 with
              | String ":"%char s3 =>
                  match read_value fuel' s3 with
                  | None => None
                  | Some (v, s4) =>
                      match skip_ws s4 with
                      | String "}"%char s5 => Some ([(k, v)], s5)
                      | String ","%char s5 =>
                          match read_members fuel' s5 with
                          | Some (l, rest) => Some ((k, v) :: l, rest)
                          | None => None
                          end
                      | _ => None
                      end
                  end
              | _ => None
              end
          end
      | _ => None
      end
  end.

(** [json.loads(s)]: one value and nothing but white space after it. *)
Definition loads (s : string) : option json :=
  match read_value (2 * String.length s + 2) s with
  | Some (v, rest) =>
      match skip_ws rest with
      | EmptyString => Some v
      | _ => None
      end
  | None => None
  end.

Fixpoint json_field (k : string) (l : list (string * json)) : option json :=
  match l with
  | [] => None
  | (k', v) :: l' => if String.eqb k' k then Some v else json_field k l'
  end.

(** The text is a sequence of exactly [K] objects, the object at
    position [k] (from 1) carrying [frame_number = k]. *)
Definition is_session_output (K : nat) (text : string) : bool :=
  match loads text with
  | Some (JArr objs) =>
      (List.length objs =? K)%nat
      && forallb (fun '(k, o) =>
                    match o with
                    | JObj fields =>
                        match json_field frame_number_key fields with
                        | Some (JNum tok) => String.eqb tok (str_nat (k + 1))
                        | _ => false
                        end
                    | _ => false
                    end) (enumerate objs)
  | _ => false
  end.

(* ================================================================= *)
(** ** Auxiliary definitions for the statements *)

(** The two numeric fields the loop body writes for a pair of values. *)
Definition field_intensity (intensity_value spread_value : float) : pyval :=
  if PyFloat.isnan intensity_value || PyFloat.isnan spread_value
  then sentinel else PFloat intensity_value.

Definition field_spread (intensity_value spread_value : float) : pyval :=
  if PyFloat.isnan intensity_value || PyFloat.isnan spread_value
  then sentinel else PFloat spread_value.

Definition field_roi (roi_value : box) : pyval := PList (map PFloat (box_list roi_value)).

(** The innermost loop of [convert_to_dict] alone, and the two innermost
    loops. *)
Definition spread_loop (roi_value : box) (a : float) (spreads : list float) (d : pydict)
  : pydict :=
  fold_left (fun d '(i, s) => dict_body roi_value a i s d) (enumerate spreads) d.

Definition intensity_loop (roi_value : box) (aggs spreads : list float) (d : pydict)
  : pydict :=
  fold_left (fun d '(_, a) => spread_loop roi_value a spreads d) (enumerate aggs) d.

(** No numeric field holds a NaN. *)
Definition no_nan_field (d : pydict) : Prop :=
  forall i v,
    dict_get (intensity_key i) d = Some v \/ dict_get (spread_key i) d = Some v ->
    is_nan_value v = false.

(** A float that is neither NaN nor an infinity. *)
Definition is_finite (x : float) : bool :=
  match Prim2SF x with
  | S754_zero _ | S754_finite _ _ _ => true
  | S754_infinity _ | S754_nan => false
  end.

(** A rectangle whose four edges are finite: the ones [box_to_slice]
    converts. *)
Definition box_finite (b : box) : bool :=
  is_finite (top b) && is_finite (top b + height b)
  && is_finite (left b) && is_finite (left b + width b).

(** A value [json.dumps] accepts: no set anywhere inside. *)
Fixpoint serialisable (v : pyval) : bool :=
  match v with
  | PInt _ | PFloat _ => true
  | PList l => forallb serialisable l
  | PSet _ => false
  | PDict d => forallb (fun kv => serialisable (snd kv)) d
  end.

(** The rectangle at a position comes out of the tracker at that
    position, run on the rectangle it held. *)
Definition tracked {V handle : Type}
  (trk_update : handle -> V -> box -> result (bool * box * handle))
  (vis : V) (entry : handle * box) (b' : box) : Prop :=
  exists found h', trk_update (fst entry) vis (snd entry) = Ok (found, b', h').

(** The trackers reachable from a construction on [seeds] by calls of
    [update]. *)
Inductive session_of {V A handle : Type}
  (trk_init : V -> box -> result handle)
  (trk_update : handle -> V -> box -> result (bool * box * handle))
  (seeds : list box) : tracker A handle -> Prop :=
| session_start init_vis agg spread t :
    tracker_init trk_init seeds init_vis agg spread = Ok t ->
    session_of trk_init trk_update seeds t
| session_step t vis infra out t' out' res :
    session_of trk_init trk_update seeds t ->
    tracker_update trk_update t vis infra out = Ok (t', out', res) ->
    session_of trk_init trk_update seeds t'.

(** What the loop has appended to the file for a list of serialised
    records: each one, then a comma and the line separator. *)
Fixpoint records_text (linesep : string) (texts : list string) : string :=
  match texts with
  | [] => ""
  | s :: texts' => translate_newlines linesep s ++ "," ++ linesep ++ records_text linesep texts'
  end.

(** A dictionary as the driver serialises it: [frame_number] first, and
    nothing but serialisable values after it. *)
Definition record_shaped (d : pydict) : Prop :=
  exists v rest, d = (frame_number_key, v) :: rest /\
                 forallb (fun kv => serialisable (snd kv)) rest = true.

(** The last [k] characters of a text. *)
Definition text_end (k : nat) (s : string) : string :=
  substring (String.length s - k) k s.

(** The record of the frame numbered [n]. *)
Definition stamped (n : nat) (rois : list box) (aggs spreads : list float) : pydict :=
  dict_set frame_number_key (PInt (Z.of_nat n)) (convert_to_dict rois aggs spreads).

(** The serialised records of a run of the loop, in order, with their
    frame numbers. *)
Definition run_records (float_repr : float -> string) (first : nat) (records : list pydict) (texts : list string) : Prop :=
  Forall2 (fun d s => dumps float_repr (PDict d) = Ok s) records texts /\
  forall k d, nth_error records k = Some d ->
              dict_get frame_number_key d = Some (PInt (Z.of_nat (first + k + 1))).

(** The three fields a region contributes, and the record
    [convert_to_dict] builds from one rectangle, one aggregate and the
    spread list: the placeholder, then the fields of regions 0, 1, ... *)
Definition region_fields (r : box) (a : float) (i : nat) (s : float) : pydict :=
  [(roi_key i, field_roi r); (intensity_key i, field_intensity a s);
   (spread_key i, field_spread a s)].

Fixpoint regions_from (r : box) (a : float) (i : nat) (spreads : list float) : pydict :=
  match spreads with
  | [] => []
  | s :: spreads' => (region_fields r a i s ++ regions_from r a (S i) spreads')%list
  end.

Definition record_of (r : box) (a : float) (spreads : list float) : pydict :=
  (initial_dictionary ++ regions_from r a 0 spreads)%list.

(** The entries of [P] have none of the keys of the regions numbered
    [j] and up. *)
Definition fresh_from (j : nat) (P : pydict) : Prop :=
  forall k i, In k (map fst P) -> j <= i ->
              k <> roi_key i /\ k <> intensity_key i /\ k <> spread_key i.

(** What [convert_to_dict] can have built so far for a given spread
    list. *)
Definition built_for (spreads : list float) (d : pydict) : Prop :=
  d = initial_dictionary \/ exists r a, d = record_of r a spreads.



(** The number a finite float stands for, as a fraction: a binary64
    value is [(-1)^s * m * 2^e]. *)
Definition float_value (x : float) : option QArith_base.Q :=
  match Prim2SF x with
  | S754_zero _ => Some (QArith_base.Qmake 0 1)
  | S754_finite s m e =>
      let n := if s then Zneg m else Zpos m in
      Some (match e with
            | Zneg p => QArith_base.Qmake n (2 ^ p)%positive
            | _ => QArith_base.Qmake (n * 2 ^ e)%Z 1
            end)
  | S754_infinity _ | S754_nan => None
  end.

(** Truncation toward zero of a fraction: its floor when it is not
    negative, the opposite of the floor of its opposite otherwise. *)
Definition Qtrunc (q : QArith_base.Q) : Z :=
  if (0 <=? QArith_base.Qnum q)%Z then Qround.Qfloor q
  else (- Qround.Qfloor (QArith_base.Qopp q))%Z.

(** The entry of the multi-tracker that descends from a seed rectangle:
    the tracker initialised on that seed, after any number of its own
    updates. *)
Inductive lineage {V handle : Type}
  (trk_init : V -> box -> result handle)
  (trk_update : handle -> V -> box -> result (bool * box * handle))
  (seed : box) : handle * box -> Prop :=
| lineage_init v h :
    trk_init v seed = Ok h -> lineage trk_init trk_update seed (h, seed)
| lineage_step h b v found b' h' :
    lineage trk_init trk_update seed (h, b) ->
    trk_update h v b = Ok (found, b', h') ->
    lineage trk_init trk_update seed (h', b').

(** *** Backends and inputs for worked examples *)

Module Demo.

(** A tracker that finds its object where it was. *)
Definition steady_init (_ : frame nat) (_ : box) : result unit := Ok tt.
Definition steady_update (h : unit) (_ : frame nat) (b : box)
  : result (bool * box * unit) := Ok (true, b, tt).


(** A tracker that reports success with a rectangle that is not a
    number. *)
Definition nan_update (h : unit) (_ : frame nat) (b : box)
  : result (bool * box * unit) := Ok (true, mkBox nan nan nan nan, tt).

(** An initialisation that only accepts rectangles in the left part of
    the image. *)
Definition picky_init (_ : frame nat) (b : box) : result unit :=
  if PrimFloat.ltb (left b) 50 then Ok tt else Raise CvError.

(** A tracker that moves its rectangle one pixel to the right and says
    it has lost it. *)
Definition drift_update (h : unit) (_ : frame nat) (b : box)
  : result (bool * box * unit) :=
  Ok (false, mkBox (left b + 1) (top b) (width b) (height b), tt).


(** An initialisation that rejects every image, present or not. *)
Definition strict_init (_ : option (frame nat)) (_ : box) : result unit := Raise CvError.
Definition strict_update (h : unit) (_ : option (frame nat)) (b : box)
  : result (bool * box * unit) := Raise CvError.

(** Reducers returning a fixed value. *)
Definition median5 (_ : frame nat) : float := 5%float.
Definition std2 (_ : frame nat) : float := 2%float.

(** A video of [n] equal frames. *)
Definition video (n : nat) : list (frame nat) := repeat [[1; 2]; [3; 4]] n.

(** The session of [n] frames after the first, with a given line
    separator: the content of [Output.json] it leaves, if it ends. *)
Definition session (linesep : string) (n : nat) : result string :=
  match main_for steady_init steady_update median5 std2
          float_repr_integral linesep n (video (S n)) with
  | Ok st => Ok (output_json st)
  | Raise e => Raise e
  end.

End Demo.

(* ================================================================= *)
(** * Properties *)

(* ================================================================= *)
(** ** Slices *)

Section SliceFacts.

Context {A : Type}.

Lemma clamp_index_nonneg (n : nat) (i : Z) :
  (0 <= i)%Z -> clamp_index n i = Nat.min n (Z.to_nat i).
Proof.
  intros Hi. unfold clamp_index.
  destruct (Z.ltb_spec i 0) as [Hneg | _]; [lia |]. lia.
Qed.

(** With bounds that are not negative, a slice is a [skipn] followed by
    a [firstn]: the clamping only cuts what is not there. *)
Lemma getslice_nonneg (a b : Z) (l : list A) :
  (0 <= a)%Z -> (0 <= b)%Z ->
  getslice (mkSlice (Some a) (Some b)) l
  = firstn (Z.to_nat b - Z.to_nat a) (skipn (Z.to_nat a) l).
Proof.
  intros Ha Hb. unfold getslice, slice_indices. cbn [start stop].
  rewrite !clamp_index_nonneg by assumption.
  set (n := List.length l). set (x := Z.to_nat a). set (y := Z.to_nat b).
  destruct (Nat.le_gt_cases n x) as [Hge | Hlt].
  - rewrite (Nat.min_l n x) by assumption.
    rewrite (skipn_all2 l) by (fold n; lia).
    rewrite (skipn_all2 l) by (fold n; lia).
    now rewrite !firstn_nil.
  - rewrite (Nat.min_r n x) by lia.
    destruct (Nat.le_gt_cases n y) as [Hy | Hy].
    + rewrite (Nat.min_l n y) by assumption.
      rewrite !firstn_all2; [reflexivity | |]; rewrite length_skipn; fold n; lia.
    + now rewrite (Nat.min_r n y) by lia.
Qed.

Lemma getslice_upto (b : Z) (l : list A) :
  (0 <= b)%Z -> getslice (mkSlice None (Some b)) l = firstn (Z.to_nat b) l.
Proof.
  intros Hb. unfold getslice, slice_indices. cbn [start stop].
  rewrite clamp_index_nonneg by assumption. rewrite Nat.sub_0_r. cbn [skipn].
  destruct (Nat.le_gt_cases (List.length l) (Z.to_nat b)) as [Hy | Hy].
  - rewrite Nat.min_l by assumption. now rewrite firstn_all, firstn_all2.
  - now rewrite Nat.min_r by lia.
Qed.

Lemma nth_error_getslice (a b : Z) (l : list A) (r : nat) :
  (0 <= a)%Z -> (0 <= b)%Z ->
  nth_error (getslice (mkSlice (Some a) (Some b)) l) r
  = if (Z.of_nat r <? b - a)%Z then nth_error l (Z.to_nat a + r) else None.
Proof.
  intros Ha Hb. rewrite getslice_nonneg by assumption.
  rewrite nth_error_firstn, nth_error_skipn.
  destruct (Nat.ltb_spec r (Z.to_nat b - Z.to_nat a));
    destruct (Z.ltb_spec (Z.of_nat r) (b - a)); try reflexivity; lia.
Qed.

End SliceFacts.

Lemma pixel_index2 {A} (a b c d : Z) (f : frame A) (r k : nat) :
  (0 <= a)%Z -> (0 <= b)%Z -> (0 <= c)%Z -> (0 <= d)%Z ->
  pixel (index2 (mkSlice (Some a) (Some b), mkSlice (Some c) (Some d)) f) r k
  = if (Z.of_nat r <? b - a)%Z && (Z.of_nat k <? d - c)%Z
    then pixel f (Z.to_nat a + r) (Z.to_nat c + k) else None.
Proof.
  intros Ha Hb Hc Hd. unfold pixel, index2. cbn [fst snd].
  rewrite nth_error_map, nth_error_getslice by assumption.
  destruct (Z.of_nat r <? b - a)%Z; cbn [andb option_map]; [| reflexivity].
  destruct (nth_error f (Z.to_nat a + r)) as [row |]; cbn [option_map].
  - now rewrite nth_error_getslice by assumption.
  - now destruct (Z.of_nat k <? d - c)%Z.
Qed.

(* ================================================================= *)
(** ** [int] truncates *)

Lemma bind_ok {A B} (r : result A) (k : A -> result B) (b : B) :
  bind r k = Ok b -> exists a, r = Ok a /\ k a = Ok b.
Proof. destruct r as [a | e]; cbn; [eauto | discriminate]. Qed.

(** The magnitude of [int x] is the integer part of the magnitude of
    [x]: for a finite [x = (-1)^s * m * 2^e], it is [m * 2^e] when [e] is
    not negative, and the [n] with [n * 2^-e <= m < (n + 1) * 2^-e]
    otherwise; the sign is that of [x].  No rounding to nearest. *)
Lemma int_truncates (x : float) (s : bool) (m : positive) (e : Z) :
  Prim2SF x = S754_finite s m e ->
  exists n : Z,
    PyFloat.int x = Ok (if s then (- n)%Z else n) /\
    (0 <= n)%Z /\
    ((0 <= e)%Z -> n = (Zpos m * 2 ^ e)%Z) /\
    ((e < 0)%Z -> (n * 2 ^ (- e) <= Zpos m < (n + 1) * 2 ^ (- e))%Z).
Proof.
  intros Hx. exists (Z.shiftl (Zpos m) e).
  unfold PyFloat.int. rewrite Hx. split; [reflexivity |].
  split; [apply Z.shiftl_nonneg; lia |]. split.
  - intros He. now apply Z.shiftl_mul_pow2.
  - intros He. rewrite Z.shiftl_div_pow2 by lia.
    assert (Hp : (0 < 2 ^ (- e))%Z) by (apply Z.pow_pos_nonneg; lia).
    pose proof (Z.mul_div_le (Zpos m) _ Hp).
    pose proof (Z.mul_succ_div_gt (Zpos m) _ Hp). lia.
Qed.

(* ================================================================= *)
(** ** Frame splitter *)

Lemma Forall_firstn {A} (P : A -> Prop) (n : nat) (l : list A) :
  Forall P l -> Forall P (firstn n l).
Proof.
  intros H. revert n. induction H as [| x l Hx Hl IH]; intros [| n]; cbn; auto.
Qed.

Lemma Forall_skipn {A} (P : A -> Prop) (n : nat) (l : list A) :
  Forall P l -> Forall P (skipn n l).
Proof.
  intros H. revert n. induction H as [| x l Hx Hl IH]; intros [| n]; cbn; auto.
Qed.

Lemma stryker_eq {A} (f : frame A) :
  stryker f = (map (firstn 480) (firstn 360 f),
               map (firstn 480) (firstn 360 (skipn 360 f))).
Proof.
  unfold stryker, index2, INFRA, VIS. cbn [fst snd]. f_equal.
  - rewrite getslice_upto by lia. apply map_ext. intros row.
    now rewrite getslice_upto by lia.
  - rewrite getslice_nonneg by lia. apply map_ext. intros row.
    now rewrite getslice_upto by lia.
Qed.

(** C8: on a combined frame of at least 720 rows of at least 480
    pixels, [stryker] returns the visible panel, which is rows 0-359 and
    columns 0-479 of the frame, and the infrared panel, which is rows
    360-719 and the same columns; the rows the two panels read are
    360 apart, so no pixel of the frame is in both.  [stryker] is a
    function of the frame alone and returns new values. *)
Theorem stryker_panels {A} (f : frame A) :
  720 <= List.length f ->
  Forall (fun row => 480 <= List.length row) f ->
  let '(visible, infrared) := stryker f in
  visible = map (firstn 480) (firstn 360 f) /\
  infrared = map (firstn 480) (firstn 360 (skipn 360 f)) /\
  List.length visible = 360 /\ List.length infrared = 360 /\
  Forall (fun row => List.length row = 480) visible /\
  Forall (fun row => List.length row = 480) infrared /\
  slice_indices (fst VIS) (List.length f) = (0, 360) /\
  slice_indices (fst INFRA) (List.length f) = (360, 720) /\
  forall r c, r < 360 -> c < 480 ->
    pixel visible r c = pixel f r c /\
    pixel infrared r c = pixel f (360 + r) c.
Proof.
  intros Hrows Hcols. rewrite stryker_eq.
  assert (Hrow : forall l : frame A,
             Forall (fun row => 480 <= List.length row) l ->
             Forall (fun row => List.length row = 480) (map (firstn 480) l)).
  { intros l Hl. apply Forall_map. eapply Forall_impl; [| exact Hl].
    intros row Hr. cbn beta in *. rewrite length_firstn. lia. }
  assert (Hpix : forall (l : frame A) r c, r < 360 -> c < 480 ->
             pixel (map (firstn 480) (firstn 360 l)) r c = pixel l r c).
  { intros l r c Hr Hc. unfold pixel.
    rewrite nth_error_map, nth_error_firstn.
    destruct (Nat.ltb_spec r 360); [| lia].
    destruct (nth_error l r) as [row |]; cbn [option_map]; [| reflexivity].
    rewrite nth_error_firstn. destruct (Nat.ltb_spec c 480); [reflexivity | lia]. }
  repeat split.
  - rewrite length_map, length_firstn. lia.
  - rewrite length_map, length_firstn, length_skipn. lia.
  - apply Hrow. now apply Forall_firstn.
  - apply Hrow. now apply Forall_firstn, Forall_skipn.
  - unfold slice_indices, VIS. cbn [fst start stop]. f_equal.
    rewrite clamp_index_nonneg by lia. lia.
  - unfold slice_indices, INFRA, VIS. cbn [fst start stop]. f_equal;
      rewrite clamp_index_nonneg by lia; lia.
  - now apply Hpix.
  - rewrite Hpix by assumption. unfold pixel. now rewrite nth_error_skipn.
Qed.

Lemma stryker_panels_witness :
  let f : frame nat := repeat (repeat 7 480) 720 in
  pixel (fst (stryker f)) 0 0 = pixel f 0 0 /\
  pixel (snd (stryker f)) 0 0 = pixel f 360 0.
Proof.
  intros f.
  assert (H1 : 720 <= List.length f) by (unfold f; rewrite repeat_length; lia).
  assert (H2 : Forall (fun row => 480 <= List.length row) f).
  { unfold f. apply Forall_forall. intros row Hin.
    apply repeat_spec in Hin. subst row. rewrite repeat_length. lia. }
  pose proof (@stryker_panels nat f H1 H2) as H.
  destruct (stryker f) as [visible infrared].
  destruct H as (_ & _ & _ & _ & _ & _ & _ & _ & H).
  exact (H 0 0 ltac:(lia) ltac:(lia)).
Defined.

(* ================================================================= *)
(** ** Rectangle to slice *)

(** C6, as stated, fails: the rectangle (10.5, 100.5, 30.5, 50.5) is
    converted to rows [100, 151) and columns [10, 41), because the end
    of each range is the truncation of the sum, whereas truncating the
    four coordinates one by one gives rows [100, 150) and columns
    [10, 40). *)
Lemma box_to_slice_not_coordinatewise :
  let b := mkBox 10.5 100.5 30.5 50.5 in
  box_to_slice b
  = Ok (mkSlice (Some 100%Z) (Some 151%Z), mkSlice (Some 10%Z) (Some 41%Z)) /\
  spec_box_to_slice b
  = Ok (mkSlice (Some 100%Z) (Some 150%Z), mkSlice (Some 10%Z) (Some 40%Z)) /\
  box_to_slice b <> spec_box_to_slice b.
Proof.
  cbv zeta. split; [reflexivity |]. split; [reflexivity |].
  intros H.
  assert (E : box_to_slice (mkBox 10.5 100.5 30.5 50.5)
              = Ok (mkSlice (Some 100%Z) (Some 151%Z), mkSlice (Some 10%Z) (Some 41%Z)))
    by reflexivity.
  rewrite H in E. vm_compute in E. discriminate E.
Qed.

(* ================================================================= *)
(** ** Dictionaries and keys *)

Lemma dict_get_set (k k' : string) (v : pyval) (d : pydict) :
  dict_get k' (dict_set k v d) = if String.eqb k k' then Some v else dict_get k' d.
Proof.
  induction d as [| [k0 v0] d IH]; cbn [dict_set dict_get].
  - reflexivity.
  - destruct (String.eqb_spec k0 k) as [-> | Hne]; cbn [dict_get].
    + now destruct (String.eqb k k').
    + rewrite IH. destruct (String.eqb_spec k0 k') as [-> | Hne'].
      * destruct (String.eqb_spec k k'); [congruence | reflexivity].
      * reflexivity.
Qed.

Lemma dict_get_set_same (k : string) (v : pyval) (d : pydict) :
  dict_get k (dict_set k v d) = Some v.
Proof. now rewrite dict_get_set, String.eqb_refl. Qed.

Lemma dict_get_set_other (k k' : string) (v : pyval) (d : pydict) :
  k <> k' -> dict_get k' (dict_set k v d) = dict_get k' d.
Proof.
  intros H. rewrite dict_get_set. now destruct (String.eqb_spec k k').
Qed.

Lemma str_nat_inj (i j : nat) : str_nat i = str_nat j -> i = j.
Proof.
  unfold str_nat. intros H. apply Unsigned.to_uint_inj.
  apply (f_equal NilEmpty.uint_of_string) in H.
  rewrite !NilEmpty.usu in H. congruence.
Qed.

Lemma roi_key_inj (i j : nat) : roi_key i = roi_key j -> i = j.
Proof. unfold roi_key. cbn. intros H. apply str_nat_inj. congruence. Qed.

Lemma intensity_key_inj (i j : nat) : intensity_key i = intensity_key j -> i = j.
Proof. unfold intensity_key. cbn. intros H. apply str_nat_inj. congruence. Qed.

Lemma spread_key_inj (i j : nat) : spread_key i = spread_key j -> i = j.
Proof. unfold spread_key. cbn. intros H. apply str_nat_inj. congruence. Qed.

Lemma roi_intensity_key (i j : nat) : roi_key i <> intensity_key j.
Proof. unfold roi_key, intensity_key. cbn. discriminate. Qed.

Lemma roi_spread_key (i j : nat) : roi_key i <> spread_key j.
Proof. unfold roi_key, spread_key. cbn. discriminate. Qed.

Lemma intensity_spread_key (i j : nat) : intensity_key i <> spread_key j.
Proof. unfold intensity_key, spread_key. cbn. discriminate. Qed.

Lemma frame_number_roi_key (i : nat) : roi_key i <> frame_number_key.
Proof. unfold roi_key, frame_number_key. cbn. discriminate. Qed.

Lemma frame_number_intensity_key (i : nat) : intensity_key i <> frame_number_key.
Proof. unfold intensity_key, frame_number_key. cbn. discriminate. Qed.

Lemma frame_number_spread_key (i : nat) : spread_key i <> frame_number_key.
Proof. unfold spread_key, frame_number_key. cbn. discriminate. Qed.

(** Two keys of different kinds never coincide: their first letters
    differ. *)
Ltac key_clash E :=
  exfalso; unfold roi_key, intensity_key, spread_key, frame_number_key in E;
  cbn in E; discriminate E.

Create HintDb keys.

#[local] Hint Resolve roi_intensity_key roi_spread_key intensity_spread_key
  frame_number_roi_key frame_number_intensity_key frame_number_spread_key
  not_eq_sym : keys.

(** What one pass of the loop body leaves under each key. *)
Lemma dict_body_eq (roi_value : box) (a : float) (i : nat) (s : float) (d : pydict) :
  dict_body roi_value a i s d
  = dict_set (spread_key i) (field_spread a s)
      (dict_set (intensity_key i) (field_intensity a s)
         (dict_set (roi_key i) (field_roi roi_value) d)).
Proof.
  unfold dict_body, field_spread, field_intensity, field_roi.
  now destruct (PyFloat.isnan a || PyFloat.isnan s).
Qed.

Lemma dict_body_roi (roi_value : box) (a : float) (i : nat) (s : float) (d : pydict) :
  dict_get (roi_key i) (dict_body roi_value a i s d) = Some (field_roi roi_value).
Proof.
  rewrite dict_body_eq.
  rewrite !dict_get_set_other by auto with keys. apply dict_get_set_same.
Qed.

Lemma dict_body_intensity (roi_value : box) (a : float) (i : nat) (s : float) (d : pydict) :
  dict_get (intensity_key i) (dict_body roi_value a i s d) = Some (field_intensity a s).
Proof.
  rewrite dict_body_eq.
  rewrite dict_get_set_other by auto with keys. apply dict_get_set_same.
Qed.

Lemma dict_body_spread (roi_value : box) (a : float) (i : nat) (s : float) (d : pydict) :
  dict_get (spread_key i) (dict_body roi_value a i s d) = Some (field_spread a s).
Proof. rewrite dict_body_eq. apply dict_get_set_same. Qed.

(** The keys of another index, and [frame_number], are left alone. *)
Lemma dict_body_other (roi_value : box) (a : float) (i : nat) (s : float) (d : pydict)
  (k : string) :
  k <> roi_key i -> k <> intensity_key i -> k <> spread_key i ->
  dict_get k (dict_body roi_value a i s d) = dict_get k d.
Proof.
  intros H1 H2 H3. rewrite dict_body_eq.
  now rewrite !dict_get_set_other by auto.
Qed.

(** C10: in the loop body of [convert_to_dict], for the index and the
    pair of values being examined, as soon as the aggregate value or the
    spread value is NaN both [intensity{i}] and [spread_intensity{i}]
    are set to -1, whatever the other value is. *)
Theorem sanitization_is_coupled (roi_value : box) (intensity_value spread_value : float)
  (i : nat) (d : pydict) :
  PyFloat.isnan intensity_value = true \/ PyFloat.isnan spread_value = true ->
  let d' := dict_body roi_value intensity_value i spread_value d in
  dict_get (intensity_key i) d' = Some (PInt (-1)) /\
  dict_get (spread_key i) d' = Some (PInt (-1)).
Proof.
  intros H d'. subst d'.
  rewrite dict_body_intensity, dict_body_spread.
  unfold field_intensity, field_spread.
  assert (E : PyFloat.isnan intensity_value || PyFloat.isnan spread_value = true)
    by (apply orb_true_iff; exact H).
  rewrite E. split; reflexivity.
Qed.

Lemma sanitization_is_coupled_witness :
  let d' := dict_body (mkBox 10 100 30 50) 5 0 nan initial_dictionary in
  dict_get (intensity_key 0) d' = Some (PInt (-1)) /\
  dict_get (spread_key 0) d' = Some (PInt (-1)).
Proof.
  apply (@sanitization_is_coupled (mkBox 10 100 30 50) 5 nan 0 initial_dictionary).
  right. reflexivity.
Defined.

(* ================================================================= *)
(** ** What [convert_to_dict] returns *)

Lemma enumerate_from_app {A} (k : nat) (l1 l2 : list A) :
  enumerate_from k (l1 ++ l2)%list
  = (enumerate_from k l1 ++ enumerate_from (k + List.length l1) l2)%list.
Proof.
  revert k. induction l1 as [| x l1 IH]; intros k; cbn.
  - now rewrite Nat.add_0_r.
  - rewrite IH. now rewrite Nat.add_succ_r.
Qed.

Lemma enumerate_snoc {A} (l : list A) (x : A) :
  enumerate (l ++ [x])%list = (enumerate l ++ [(List.length l, x)])%list.
Proof. unfold enumerate. now rewrite enumerate_from_app. Qed.

Lemma convert_to_dict_loops (rois : list box) (aggs spreads : list float) :
  convert_to_dict rois aggs spreads
  = fold_left (fun d '(_, roi_value) => intensity_loop roi_value aggs spreads d)
      (enumerate rois) initial_dictionary.
Proof. reflexivity. Qed.

Lemma spread_loop_snoc roi_value a spreads s d :
  spread_loop roi_value a (spreads ++ [s])%list d
  = dict_body roi_value a (List.length spreads) s (spread_loop roi_value a spreads d).
Proof. unfold spread_loop. now rewrite enumerate_snoc, fold_left_app. Qed.

Lemma intensity_loop_snoc roi_value aggs a spreads d :
  intensity_loop roi_value (aggs ++ [a])%list spreads d
  = spread_loop roi_value a spreads (intensity_loop roi_value aggs spreads d).
Proof. unfold intensity_loop. now rewrite enumerate_snoc, fold_left_app. Qed.

Lemma convert_to_dict_snoc rois roi_value aggs spreads :
  convert_to_dict (rois ++ [roi_value])%list aggs spreads
  = intensity_loop roi_value aggs spreads (convert_to_dict rois aggs spreads).
Proof. rewrite !convert_to_dict_loops. now rewrite enumerate_snoc, fold_left_app. Qed.

(** After the innermost loop, index [k] of the spread list has written
    the three keys of number [k], from the rectangle and the aggregate
    the two outer loops are at. *)
Lemma spread_loop_fields roi_value a spreads d k s :
  nth_error spreads k = Some s ->
  let d' := spread_loop roi_value a spreads d in
  dict_get (roi_key k) d' = Some (field_roi roi_value) /\
  dict_get (intensity_key k) d' = Some (field_intensity a s) /\
  dict_get (spread_key k) d' = Some (field_spread a s).
Proof.
  revert k s. induction spreads as [| s0 spreads IH] using rev_ind; intros k s Hk.
  - destruct k; discriminate Hk.
  - cbv zeta. rewrite spread_loop_snoc.
    destruct (Nat.eq_dec k (List.length spreads)) as [-> | Hne].
    + rewrite nth_error_app2, Nat.sub_diag in Hk by lia. cbn in Hk.
      injection Hk as ->.
      now rewrite dict_body_roi, dict_body_intensity, dict_body_spread.
    + assert (Hlt : k < List.length spreads).
      { assert (Hs : nth_error (spreads ++ [s0])%list k <> None) by congruence.
        apply nth_error_Some in Hs. rewrite length_app in Hs. cbn in Hs. lia. }
      rewrite nth_error_app1 in Hk by assumption.
      destruct (IH k s Hk) as (H1 & H2 & H3).
      rewrite !dict_body_other; auto with keys;
        intros E;
        (apply roi_key_inj in E || apply intensity_key_inj in E
         || apply spread_key_inj in E); contradiction.
Qed.

(** The loops only ever write keys numbered below the length of the
    spread list; every other key keeps what it had. *)
Lemma spread_loop_other roi_value a spreads d key :
  (forall k, k < List.length spreads ->
             key <> roi_key k /\ key <> intensity_key k /\ key <> spread_key k) ->
  dict_get key (spread_loop roi_value a spreads d) = dict_get key d.
Proof.
  induction spreads as [| s0 spreads IH] using rev_ind; intros Hkey.
  - reflexivity.
  - rewrite spread_loop_snoc.
    destruct (Hkey (List.length spreads)) as (H1 & H2 & H3);
      [rewrite length_app; cbn; lia |].
    rewrite dict_body_other by assumption.
    apply IH. intros k Hk. apply Hkey. rewrite length_app. lia.
Qed.

Lemma intensity_loop_other roi_value aggs spreads d key :
  (forall k, k < List.length spreads ->
             key <> roi_key k /\ key <> intensity_key k /\ key <> spread_key k) ->
  dict_get key (intensity_loop roi_value aggs spreads d) = dict_get key d.
Proof.
  intros Hkey. induction aggs as [| a aggs IH] using rev_ind.
  - reflexivity.
  - rewrite intensity_loop_snoc. now rewrite spread_loop_other.
Qed.

Lemma convert_to_dict_other rois aggs spreads key :
  (forall k, k < List.length spreads ->
             key <> roi_key k /\ key <> intensity_key k /\ key <> spread_key k) ->
  dict_get key (convert_to_dict rois aggs spreads) = dict_get key initial_dictionary.
Proof.
  intros Hkey. induction rois as [| r rois IH] using rev_ind.
  - reflexivity.
  - rewrite convert_to_dict_snoc. now rewrite intensity_loop_other.
Qed.

(** The record [convert_to_dict] returns, key by key: when there is at
    least one rectangle and one aggregate, every index [k] of the spread
    list gets the last rectangle, and the last aggregate paired with
    spread [k]. *)
Lemma convert_to_dict_fields rois roi_last aggs agg_last spreads k s :
  nth_error spreads k = Some s ->
  let d := convert_to_dict (rois ++ [roi_last])%list (aggs ++ [agg_last])%list spreads in
  dict_get (roi_key k) d = Some (field_roi roi_last) /\
  dict_get (intensity_key k) d = Some (field_intensity agg_last s) /\
  dict_get (spread_key k) d = Some (field_spread agg_last s).
Proof.
  intros Hk. cbv zeta. rewrite convert_to_dict_snoc, intensity_loop_snoc.
  now apply spread_loop_fields.
Qed.

(** Nothing is written for an index the spread list does not have, nor
    when a list is empty. *)
Lemma convert_to_dict_absent rois aggs spreads k :
  List.length spreads <= k ->
  let d := convert_to_dict rois aggs spreads in
  dict_get (roi_key k) d = None /\
  dict_get (intensity_key k) d = None /\
  dict_get (spread_key k) d = None.
Proof.
  intros Hk. cbv zeta.
  rewrite !convert_to_dict_other.
  - repeat split; unfold initial_dictionary; cbn [dict_get];
      match goal with
      | |- (if String.eqb ?a ?b then _ else _) = _ =>
          destruct (String.eqb_spec a b) as [E | _]; [key_clash E | reflexivity]
      end.
  - intros j Hj. repeat split; auto with keys.
    intros E. apply spread_key_inj in E. lia.
  - intros j Hj. repeat split; auto with keys.
    intros E. apply intensity_key_inj in E. lia.
  - intros j Hj. repeat split; auto with keys.
    intros E. apply roi_key_inj in E. lia.
Qed.

Lemma convert_to_dict_frame_number rois aggs spreads :
  dict_get frame_number_key (convert_to_dict rois aggs spreads)
  = Some (PDict [("roi", PSet ["intensity"; "spread_intensity"])]).
Proof.
  rewrite convert_to_dict_other; [reflexivity |].
  intros k _. repeat split; auto with keys.
Qed.

Lemma fold_left_preserves {S X} (P : S -> Prop) (f : S -> X -> S) (l : list X) (s : S) :
  (forall s x, P s -> P (f s x)) -> P s -> P (fold_left f l s).
Proof.
  intros Hf. revert s. induction l as [| x l IH]; intros s Hs; cbn; auto.
Qed.

Lemma field_intensity_not_nan (a s : float) : is_nan_value (field_intensity a s) = false.
Proof.
  unfold field_intensity.
  destruct (PyFloat.isnan a) eqn:Ea; cbn; [reflexivity |].
  destruct (PyFloat.isnan s); cbn; [reflexivity | exact Ea].
Qed.

Lemma field_spread_not_nan (a s : float) : is_nan_value (field_spread a s) = false.
Proof.
  unfold field_spread.
  destruct (PyFloat.isnan a) eqn:Ea; cbn; [reflexivity |].
  destruct (PyFloat.isnan s) eqn:Es; cbn; [reflexivity | exact Es].
Qed.

Lemma dict_body_no_nan roi_value a i s d :
  no_nan_field d -> no_nan_field (dict_body roi_value a i s d).
Proof.
  intros Hd j v. rewrite dict_body_eq, !dict_get_set.
  destruct (String.eqb_spec (spread_key i) (intensity_key j)) as [E | _];
    [symmetry in E; now apply intensity_spread_key in E |].
  destruct (String.eqb_spec (roi_key i) (intensity_key j)) as [E | _];
    [now apply roi_intensity_key in E |].
  destruct (String.eqb_spec (intensity_key i) (spread_key j)) as [E | _];
    [now apply intensity_spread_key in E |].
  destruct (String.eqb_spec (roi_key i) (spread_key j)) as [E | _];
    [now apply roi_spread_key in E |].
  destruct (String.eqb_spec (intensity_key i) (intensity_key j)) as [_ | _];
    destruct (String.eqb_spec (spread_key i) (spread_key j)) as [_ | _];
    intros [H | H];
    try (injection H as <-;
         first [apply field_intensity_not_nan | apply field_spread_not_nan]);
    apply (Hd j v); auto.
Qed.

(** The half of C3 that holds on every input: whatever the three lists,
    no [intensity{i}] and no [spread_intensity{i}] of the record is
    NaN. *)
Lemma convert_to_dict_never_nan rois aggs spreads :
  no_nan_field (convert_to_dict rois aggs spreads).
Proof.
  unfold convert_to_dict.
  apply fold_left_preserves.
  - intros d [_ roi_value] Hd. apply fold_left_preserves; [| exact Hd].
    intros d1 [_ a] Hd1. apply fold_left_preserves; [| exact Hd1].
    intros d2 [i s] Hd2. now apply dict_body_no_nan.
  - intros i v [H | H]; unfold initial_dictionary in H; cbn [dict_get] in H;
      match type of H with
      | (if String.eqb ?a ?b then _ else _) = _ =>
          destruct (String.eqb_spec a b) as [E | _]; [key_clash E | discriminate H]
      end.
Qed.

(** A NaN spread is always written as -1 in its own field, as long as
    the rectangle and aggregate lists are not empty. *)
Lemma convert_to_dict_nan_spread rois roi_last aggs agg_last spreads k s :
  nth_error spreads k = Some s -> PyFloat.isnan s = true ->
  dict_get (spread_key k)
    (convert_to_dict (rois ++ [roi_last])%list (aggs ++ [agg_last])%list spreads)
  = Some sentinel.
Proof.
  intros Hk Hs.
  destruct (convert_to_dict_fields rois roi_last aggs agg_last spreads k Hk)
    as (_ & _ & H).
  rewrite H. unfold field_spread. rewrite Hs. now rewrite orb_true_r.
Qed.

(** With one region the three lists are trivially aligned. *)
Lemma convert_to_dict_single (r : box) (a s : float) :
  let d := convert_to_dict [r] [a] [s] in
  dict_get (roi_key 0) d = Some (field_roi r) /\
  dict_get (intensity_key 0) d = Some (field_intensity a s) /\
  dict_get (spread_key 0) d = Some (field_spread a s).
Proof. exact (convert_to_dict_fields [] r [] a [s] 0 eq_refl). Qed.

(** C2 at the two regions of the driver: with rectangles
    [[10,100,30,50]] and [[100,100,50,30]], aggregates [5.0, 7.0] and
    spreads [1.0, 2.0], the record has [roi0 = [100,100,50,30]] and
    [intensity0 = 7.0], the rectangle and the aggregate of region 1,
    where the index-aligned record has [[10,100,30,50]] and [5.0]. *)
Theorem convert_to_dict_not_index_aligned :
  let d := convert_to_dict rois0 [5; 7]%float [1; 2]%float in
  let aligned := spec_aligned_from 0 rois0 [5; 7]%float [1; 2]%float initial_dictionary in
  dict_get (roi_key 0) d = Some (field_roi (mkBox 100 100 50 30)) /\
  dict_get (roi_key 0) aligned = Some (field_roi (mkBox 10 100 30 50)) /\
  dict_get (intensity_key 0) d = Some (PFloat 7) /\
  dict_get (intensity_key 0) aligned = Some (PFloat 5) /\
  dict_get (spread_key 0) d = Some (PFloat 1) /\
  dict_get (roi_key 0) d <> dict_get (roi_key 0) aligned /\
  dict_get (intensity_key 0) d <> dict_get (intensity_key 0) aligned.
Proof.
  cbv zeta.
  assert (H1 : dict_get (roi_key 0) (convert_to_dict rois0 [5; 7]%float [1; 2]%float)
               = Some (field_roi (mkBox 100 100 50 30))) by reflexivity.
  assert (H2 : dict_get (roi_key 0)
                 (spec_aligned_from 0 rois0 [5; 7]%float [1; 2]%float initial_dictionary)
               = Some (field_roi (mkBox 10 100 30 50))) by reflexivity.
  assert (H3 : dict_get (intensity_key 0) (convert_to_dict rois0 [5; 7]%float [1; 2]%float)
               = Some (PFloat 7)) by reflexivity.
  assert (H4 : dict_get (intensity_key 0)
                 (spec_aligned_from 0 rois0 [5; 7]%float [1; 2]%float initial_dictionary)
               = Some (PFloat 5)) by reflexivity.
  repeat split; try assumption; try reflexivity.
  - rewrite H1, H2. intros E.
    apply (f_equal (fun o => match o with
                             | Some (PList (PFloat x :: _)) => PrimFloat.eqb x 10
                             | _ => true
                             end)) in E.
    vm_compute in E. discriminate E.
  - rewrite H3, H4. intros E.
    apply (f_equal (fun o => match o with
                             | Some (PFloat x) => PrimFloat.eqb x 5
                             | _ => true
                             end)) in E.
    vm_compute in E. discriminate E.
Qed.

(** C3 at the two regions of the driver: with aggregates [NaN, 7.0]
    and spreads [1.0, 2.0], the NaN aggregate of region 0 does not show
    as -1 in [intensity0], which holds 7.0, the aggregate of region 1. *)
Theorem convert_to_dict_nan_not_sanitized :
  let d := convert_to_dict rois0 [nan; 7]%float [1; 2]%float in
  PyFloat.isnan (nth 0 [nan; 7]%float 0%float) = true /\
  dict_get (intensity_key 0) d = Some (PFloat 7) /\
  dict_get (intensity_key 0) d <> Some (PInt (-1)).
Proof.
  cbv zeta.
  assert (H : dict_get (intensity_key 0) (convert_to_dict rois0 [nan; 7]%float [1; 2]%float)
              = Some (PFloat 7)) by reflexivity.
  split; [reflexivity |]. split; [exact H |]. rewrite H. discriminate.
Qed.

(* ================================================================= *)
(** ** Region tracker *)



Section TrackerFacts.

Variables V A handle : Type.
Variable trk_init : V -> box -> result handle.
Variable trk_update : handle -> V -> box -> result (bool * box * handle).

Lemma MultiTracker_update_shape (mt : MultiTracker handle) (vis : V) succ rois mt' :
  MultiTracker_update trk_update mt vis = Ok (succ, rois, mt') ->
  List.length rois = List.length mt /\
  map snd mt' = rois /\
  Forall2 (tracked trk_update vis) mt rois.
Proof.
  revert succ rois mt'. induction mt as [| [h b] mt IH]; intros succ rois mt' H.
  - cbn in H. injection H as <- <- <-. repeat split. constructor.
  - cbn [MultiTracker_update] in H.
    apply bind_ok in H as ([[found b'] h'] & Hu & H).
    apply bind_ok in H as ([[succ0 boxes] mt0] & Hrec & H).
    injection H as <- <- <-.
    destruct (IH _ _ _ Hrec) as (H1 & H2 & H3).
    cbn [List.length map snd]. repeat split; [congruence | congruence |].
    constructor; [| exact H3]. exists found, h'. exact Hu.
Qed.

Lemma add_all_boxes (v : V) (rois : list box) (mt0 mt : MultiTracker handle) :
  for_each (fun mt roi => MultiTracker_add trk_init mt v roi) rois mt0 = Ok mt ->
  map snd mt = (map snd mt0 ++ rois)%list.
Proof.
  revert mt0. induction rois as [| roi rois IH]; intros mt0 H.
  - cbn in H. injection H as <-. now rewrite app_nil_r.
  - cbn [for_each] in H. apply bind_ok in H as (mt1 & Hadd & H).
    unfold MultiTracker_add in Hadd. apply bind_ok in Hadd as (h & _ & Hadd).
    injection Hadd as <-. rewrite (IH _ H), map_app. cbn [map snd].
    now rewrite <- app_assoc.
Qed.

Lemma add_all_ok (v : V) (rois : list box) (mt0 : MultiTracker handle) :
  is_ok (for_each (fun mt roi => MultiTracker_add trk_init mt v roi) rois mt0)
  = forallb (fun roi => is_ok (trk_init v roi)) rois.
Proof.
  revert mt0. induction rois as [| roi rois IH]; intros mt0; [reflexivity |].
  cbn [for_each forallb]. unfold MultiTracker_add at 1.
  destruct (trk_init v roi) as [h | e]; cbn [bind is_ok andb]; [apply IH | reflexivity].
Qed.

Lemma tracker_init_boxes rois v (agg : frame A -> float) spread t :
  tracker_init trk_init rois v agg spread = Ok t ->
  map snd (tracker_multi t) = rois /\ agg_func t = agg /\ spread_func t = spread.
Proof.
  unfold tracker_init. intros H. apply bind_ok in H as (mt & Hmt & H).
  injection H as <-. cbn. split; [| auto]. now apply add_all_boxes in Hmt.
Qed.

(** The loop of [update] without a spread function. *)
Lemma agg_loop_length (agg : frame A -> float) (infra : frame A) rois acc res :
  for_each (fun aggs roi =>
              bind (box_to_slice roi) (fun ix =>
              Ok (aggs ++ [agg (index2 ix infra)])%list)) rois acc = Ok res ->
  List.length res = List.length acc + List.length rois.
Proof.
  revert acc. induction rois as [| roi rois IH]; intros acc H.
  - cbn in H. injection H as <-. cbn. lia.
  - cbn [for_each] in H. apply bind_ok in H as (acc1 & H1 & H).
    apply bind_ok in H1 as (ix & _ & H1). injection H1 as <-.
    rewrite (IH _ H), length_app. cbn. lia.
Qed.


(** The loop of [update] with a spread function. *)
Lemma spread_loop_length (agg spread : frame A -> float) (infra : frame A) rois acc res :
  for_each (fun '(aggs, spreads) roi =>
              bind (box_to_slice roi) (fun ix =>
              bind (box_to_slice roi) (fun ix' =>
              Ok ((aggs ++ [agg (index2 ix infra)])%list,
                  (spreads ++ [spread (index2 ix' infra)])%list)))) rois acc = Ok res ->
  List.length (fst res) = List.length (fst acc) + List.length rois /\
  List.length (snd res) = List.length (snd acc) + List.length rois.
Proof.
  revert acc. induction rois as [| roi rois IH]; intros [aggs spreads] H.
  - cbn in H. injection H as <-. cbn. lia.
  - cbn [for_each] in H. apply bind_ok in H as (acc1 & H1 & H).
    apply bind_ok in H1 as (ix & _ & H1).
    apply bind_ok in H1 as (ix' & _ & H1). injection H1 as <-.
    destruct (IH _ H) as [E1 E2]. cbn [fst snd] in *.
    rewrite E1, E2, !length_app. cbn. lia.
Qed.


(** What a call of [update] that returns has returned. *)
Lemma tracker_update_shape (t : tracker A handle) vis infra out t' out' rois aggs sp :
  tracker_update trk_update t vis infra out = Ok (t', out', (rois, aggs, sp)) ->
  List.length rois = List.length (tracker_multi t) /\
  List.length aggs = List.length rois /\
  match sp with
  | Some spreads => spread_func t <> None /\ List.length spreads = List.length rois
  | None => spread_func t = None
  end /\
  map snd (tracker_multi t') = rois /\
  Forall2 (tracked trk_update vis) (tracker_multi t) rois /\
  agg_func t' = agg_func t /\ spread_func t' = spread_func t.
Proof.
  unfold tracker_update. intros H.
  apply bind_ok in H as ([[succ rois1] mt] & Hu & H).
  destruct (MultiTracker_update_shape _ _ Hu) as (L1 & L2 & L3).
  destruct (spread_func t) as [spread |] eqn:Esp.
  - cbv zeta in H. apply bind_ok in H as ([aggs1 spreads1] & Hloop & H).
    injection H as <- <- <- <- <-.
    apply spread_loop_length in Hloop as [E1 E2]. cbn in E1, E2.
    cbn [tracker_multi agg_func spread_func].
    repeat split; try assumption; try congruence.
  - apply bind_ok in H as (aggs1 & Hloop & H).
    injection H as <- <- <- <- <-.
    apply agg_loop_length in Hloop. cbn in Hloop.
    cbn [tracker_multi agg_func spread_func].
    repeat split; try assumption; try congruence.
Qed.

Lemma session_regions (seeds : list box) (t : tracker A handle) :
  session_of trk_init trk_update seeds t ->
  List.length (tracker_multi t) = List.length seeds.
Proof.
  induction 1 as [init_vis agg spread t H | t vis infra out t' out' res _ IH H].
  - apply tracker_init_boxes in H as (H & _). rewrite <- H. now rewrite length_map.
  - destruct res as [[rois aggs] sp].
    apply tracker_update_shape in H as (L1 & _ & _ & L2 & _).
    rewrite <- IH, <- L1, <- L2. now rewrite length_map.
Qed.


(** C9, amended: the constructor checks neither the initial frame nor
    the seed list.  It succeeds exactly when the initialisation of the
    underlying tracker succeeds on every seed, so with an empty seed
    list it succeeds whatever the initial frame. *)
Theorem tracker_init_outcome (rois : list box) (init_vis : V)
  (agg : frame A -> float) (spread : option (frame A -> float)) :
  is_ok (tracker_init trk_init rois init_vis agg spread)
  = forallb (fun roi => is_ok (trk_init init_vis roi)) rois /\
  tracker_init trk_init [] init_vis agg spread = Ok (mkTracker [] agg spread).
Proof.
  split; [| reflexivity].
  unfold tracker_init. rewrite <- add_all_ok with (mt0 := MultiTracker_create handle).
  now destruct (for_each _ rois _).
Qed.

End TrackerFacts.

(** C9, as stated, fails: with no initial frame and no seed rectangle,
    and an underlying tracker that would reject any image, construction
    returns a session, and that session can be updated. *)
Lemma tracker_init_checks_nothing :
  let absent : option (frame nat) := None in
  let t := mkTracker [] Demo.median5 (Some Demo.std2) in
  tracker_init Demo.strict_init [] absent Demo.median5 (Some Demo.std2) = Ok t /\
  tracker_update Demo.strict_update t absent [] [] = Ok (t, [], ([], [], Some [])).
Proof. split; reflexivity. Qed.

(* ================================================================= *)
(** ** Text *)

Lemma append_nil_r (s : string) : s ++ "" = s.
Proof. induction s as [| c s IH]; cbn; [reflexivity | now rewrite IH]. Qed.

Lemma append_assoc (a b c : string) : (a ++ b) ++ c = a ++ (b ++ c).
Proof. induction a as [| x a IH]; cbn; [reflexivity | now rewrite IH]. Qed.

Lemma length_append (a b : string) :
  String.length (a ++ b) = String.length a + String.length b.
Proof. induction a as [| x a IH]; cbn; [reflexivity | now rewrite IH]. Qed.

Lemma substring_prefix (a b : string) : substring 0 (String.length a) (a ++ b) = a.
Proof.
  induction a as [| x a IH]; cbn.
  - now destruct b.
  - now rewrite IH.
Qed.

(** Dropping the last [k] characters of [a ++ b], [b] of length [k]. *)
Lemma substring_drop_end (a b : string) :
  substring 0 (String.length (a ++ b) - String.length b) (a ++ b) = a.
Proof.
  rewrite length_append.
  replace (String.length a + String.length b - String.length b)
    with (String.length a) by lia.
  apply substring_prefix.
Qed.

Lemma translate_newlines_app (linesep a b : string) :
  translate_newlines linesep (a ++ b)
  = translate_newlines linesep a ++ translate_newlines linesep b.
Proof.
  induction a as [| c a IH]; cbn; [reflexivity |].
  rewrite IH. destruct (Ascii.eqb c "010"); [| reflexivity].
  now rewrite append_assoc.
Qed.

Lemma translate_newlines_posix (s : string) : translate_newlines LF s = s.
Proof.
  induction s as [| c s IH]; cbn; [reflexivity |].
  rewrite IH. destruct (Ascii.eqb_spec c "010") as [-> | _]; reflexivity.
Qed.

Lemma append_text_record (linesep file s : string) :
  append_text linesep file (s ++ "," ++ LF)
  = file ++ translate_newlines linesep s ++ "," ++ linesep.
Proof.
  unfold append_text. rewrite translate_newlines_app. cbn.
  now rewrite append_nil_r.
Qed.

Lemma records_text_app (linesep : string) (l1 l2 : list string) :
  records_text linesep (l1 ++ l2)%list = records_text linesep l1 ++ records_text linesep l2.
Proof.
  induction l1 as [| s l1 IH]; cbn [records_text app]; [reflexivity |].
  rewrite IH. now rewrite !append_assoc.
Qed.

(* ================================================================= *)
(** ** Serialising a record *)

Section DumpsFacts.

Variable float_repr : float -> string.

Lemma dumps_total : forall v, serialisable v = true -> exists s, dumps float_repr v = Ok s.
Proof.
  fix IH 1. intros [z | x | l | l | d]; cbn [serialisable dumps]; intros H.
  - eauto.
  - eauto.
  - assert (Hl : exists ss,
               (fix items (l : list pyval) : result (list string) :=
                  match l with
                  | [] => Ok []
                  | x :: l' =>
                      bind (dumps float_repr x)
                        (fun s => bind (items l') (fun r => Ok (s :: r)))
                  end) l = Ok ss).
    { induction l as [| x l IHl]; [eauto |].
      cbn [forallb] in H. apply andb_prop in H as [Hx Hl].
      destruct (IH x Hx) as [s ->]. destruct (IHl Hl) as [ss ->].
      cbn [bind]. eauto. }
    destruct Hl as [ss ->]. cbn [bind]. eauto.
  - discriminate H.
  - assert (Hd : exists ss,
               (fix items (d : list (string * pyval)) : result (list string) :=
                  match d with
                  | [] => Ok []
                  | (k, x) :: d' =>
                      bind (dumps float_repr x)
                        (fun s => bind (items d')
                                    (fun r => Ok ((quote k ++ ": " ++ s) :: r)))
                  end) d = Ok ss).
    { induction d as [| [k x] d IHd]; [eauto |].
      cbn [forallb snd] in H. apply andb_prop in H as [Hx Hd].
      destruct (IH x Hx) as [s ->]. destruct (IHd Hd) as [ss ->].
      cbn [bind]. eauto. }
    destruct Hd as [ss ->]. cbn [bind]. eauto.
Qed.

(** The text of a dictionary is between braces. *)
Lemma dumps_dict_braces (d : pydict) (s : string) :
  dumps float_repr (PDict d) = Ok s -> exists body, s = "{" ++ body ++ "}".
Proof.
  cbn [dumps]. intros H. apply bind_ok in H as (ss & _ & H).
  injection H as <-. exists (join ", " ss). reflexivity.
Qed.

End DumpsFacts.

Lemma dict_set_serialisable (k : string) (v : pyval) (d : pydict) :
  serialisable v = true ->
  forallb (fun kv => serialisable (snd kv)) d = true ->
  forallb (fun kv => serialisable (snd kv)) (dict_set k v d) = true.
Proof.
  intros Hv. induction d as [| [k0 v0] d IH]; cbn [dict_set forallb snd]; intros H.
  - now rewrite Hv.
  - apply andb_prop in H as [H0 Hd].
    destruct (String.eqb k0 k); cbn [forallb snd].
    + now rewrite Hv, Hd.
    + now rewrite H0, IH.
Qed.

Lemma dict_set_keeps_head (k : string) (v v0 : pyval) (rest : pydict) :
  k <> frame_number_key ->
  dict_set k v ((frame_number_key, v0) :: rest)
  = (frame_number_key, v0) :: dict_set k v rest.
Proof.
  intros H. cbn [dict_set].
  destruct (String.eqb_spec frame_number_key k) as [E | _]; [| reflexivity].
  now elim H.
Qed.

Lemma record_shaped_set (k : string) (v : pyval) (d : pydict) :
  k <> frame_number_key -> serialisable v = true ->
  record_shaped d -> record_shaped (dict_set k v d).
Proof.
  intros Hk Hv (v0 & rest & -> & Hrest).
  exists v0, (dict_set k v rest). split.
  - now apply dict_set_keeps_head.
  - now apply dict_set_serialisable.
Qed.

Lemma field_intensity_serialisable (a s : float) : serialisable (field_intensity a s) = true.
Proof. unfold field_intensity. now destruct (_ || _). Qed.

Lemma field_spread_serialisable (a s : float) : serialisable (field_spread a s) = true.
Proof. unfold field_spread. now destruct (_ || _). Qed.

Lemma dict_body_record_shaped roi_value a i s d :
  record_shaped d -> record_shaped (dict_body roi_value a i s d).
Proof.
  intros H. rewrite dict_body_eq.
  apply record_shaped_set;
    [apply frame_number_spread_key | apply field_spread_serialisable |].
  apply record_shaped_set;
    [apply frame_number_intensity_key | apply field_intensity_serialisable |].
  apply record_shaped_set; [apply frame_number_roi_key | reflexivity | exact H].
Qed.

Lemma convert_to_dict_record_shaped rois aggs spreads :
  record_shaped (convert_to_dict rois aggs spreads).
Proof.
  unfold convert_to_dict. apply fold_left_preserves.
  - intros d [_ roi_value] Hd. apply fold_left_preserves; [| exact Hd].
    intros d1 [_ a] Hd1. apply fold_left_preserves; [| exact Hd1].
    intros d2 [i s] Hd2. now apply dict_body_record_shaped.
  - unfold initial_dictionary. eexists _, []. split; reflexivity.
Qed.

(** Once the driver has stamped [frame_number], the record can be
    serialised: the placeholder, which holds a set, is gone. *)
Lemma stamped_record_serialisable rois aggs spreads (n : Z) :
  let d := dict_set frame_number_key (PInt n) (convert_to_dict rois aggs spreads) in
  serialisable (PDict d) = true /\ dict_get frame_number_key d = Some (PInt n).
Proof.
  cbv zeta. split; [| apply dict_get_set_same].
  destruct (convert_to_dict_record_shaped rois aggs spreads) as (v0 & rest & -> & Hrest).
  cbn [dict_set]. rewrite String.eqb_refl. cbn [serialisable forallb snd].
  exact Hrest.
Qed.

(* ================================================================= *)
(** ** The driver loop and the output file *)

Section MainFacts.

Variable A : Type.
Variable handle : Type.
Variable trk_init : frame A -> box -> result handle.
Variable trk_update : handle -> frame A -> box -> result (bool * box * handle).
Variable np_median : frame A -> float.
Variable np_std : frame A -> float.
Variable float_repr : float -> string.
Variable linesep : string.

(** One iteration that ends has read one frame, called [update] on its
    two panels, counted the frame, and appended the serialised record,
    a comma and a line end to the file; what the file held stays. *)
Lemma loop_body_inv (st st' : loop_state A handle) :
  loop_body trk_update float_repr linesep st = Ok st' ->
  exists f rois aggs spreads s,
    cap st = f :: cap st' /\
    tracker_update trk_update (vanilla st) (fst (stryker f)) (snd (stryker f)) (stdout st)
    = Ok (vanilla st', stdout st', (rois, aggs, Some spreads)) /\
    frame_counter st' = frame_counter st + 1 /\
    dumps float_repr (PDict (stamped (frame_counter st') rois aggs spreads)) = Ok s /\
    output_json st' = output_json st ++ translate_newlines linesep s ++ "," ++ linesep.
Proof.
  unfold loop_body. destruct (cap st) as [| f cap'] eqn:Ecap; [discriminate |].
  unfold stryker. intros H.
  apply bind_ok in H as ([[t' out'] [[rois aggs] sp]] & Hu & H).
  destruct sp as [spreads |]; [| discriminate H].
  apply bind_ok in H as (file & Hfile & H). injection H as <-.
  unfold convert_to_JSON_file in Hfile. apply bind_ok in Hfile as (s & Hs & Hfile).
  injection Hfile as <-. cbn [cap vanilla frame_counter output_json stdout fst snd].
  exists f, rois, aggs, spreads, s. repeat split; try assumption.
  apply append_text_record.
Qed.


Lemma loop_output (n : nat) (st st' : loop_state A handle) :
  loop trk_update float_repr linesep n st = Ok st' ->
  exists records texts,
    List.length records = n /\
    run_records float_repr (frame_counter st) records texts /\
    frame_counter st' = frame_counter st + n /\
    output_json st' = output_json st ++ records_text linesep texts.
Proof.
  revert st. induction n as [| n IH]; intros st H.
  - cbn in H. injection H as <-. exists [], []. repeat split.
    + constructor.
    + intros [| k] d Hk; discriminate Hk.
    + lia.
    + cbn. now rewrite append_nil_r.
  - cbn [loop] in H. apply bind_ok in H as (st1 & Hbody & H).
    apply loop_body_inv in Hbody as (f & rois & aggs & spreads & s & _ & _ & Hc & Hs & Ho).
    destruct (IH _ H) as (records & texts & Hlen & [Hall Hnum] & Hc' & Ho').
    exists (stamped (frame_counter st1) rois aggs spreads :: records), (s :: texts).
    repeat split.
    + cbn. now rewrite Hlen.
    + constructor; assumption.
    + intros [| k] d Hk; cbn in Hk.
      * injection Hk as <-. unfold stamped. rewrite dict_get_set_same.
        do 3 f_equal. lia.
      * rewrite (Hnum k d Hk). do 3 f_equal. lia.
    + lia.
    + rewrite Ho', Ho. cbn [records_text]. now rewrite !append_assoc.
Qed.

Lemma main_for_output (n : nat) (video : list (frame A)) (st : loop_state A handle) :
  main_for trk_init trk_update np_median np_std float_repr linesep n video = Ok st ->
  exists records texts,
    List.length records = n /\
    run_records float_repr 0 records texts /\
    frame_counter st = n /\
    let written := "[" ++ records_text linesep texts in
    3 <= String.length written /\
    output_json st = substring 0 (String.length written - 3) written ++ "]".
Proof.
  unfold main_for. destruct video as [| frame0 video']; [discriminate |].
  unfold stryker. intros H.
  apply bind_ok in H as (trk & _ & H).
  apply bind_ok in H as (st1 & Hloop & H).
  apply bind_ok in H as (file & Hseek & H). injection H as <-.
  apply loop_output in Hloop as (records & texts & Hlen & Hrec & Hc & Ho).
  cbn [frame_counter output_json] in Hc, Ho, Hrec.
  change (append_text linesep "" "[") with "[" in Ho.
  unfold seek_end_truncate in Hseek. rewrite Ho in Hseek.
  destruct (Nat.ltb_spec (String.length ("[" ++ records_text linesep texts)) 3)
    as [Hlt | Hge]; [discriminate Hseek |].
  injection Hseek as <-.
  exists records, texts. cbn [frame_counter output_json].
  split; [exact Hlen |]. split; [exact Hrec |]. split; [exact Hc |].
  cbv zeta. split; [exact Hge | reflexivity].
Qed.

(** C7: the framing of [Output.json].  A run of the driver that ends
    has put in the file, in this order: the character "[" (once, before
    the loop), then for each of the [n] frames its serialised record
    followed by a comma and a line end; it has then removed exactly the
    last three bytes and appended "]".  Every iteration only appends:
    what the file held before it is still there, unchanged, in front of the
    new record. *)
Theorem framing_protocol (n : nat) (video : list (frame A)) (final : loop_state A handle) :
  main_for trk_init trk_update np_median np_std float_repr linesep n video = Ok final ->
  (exists records texts,
      List.length records = n /\
      run_records float_repr 0 records texts /\
      let written := "[" ++ records_text linesep texts in
      3 <= String.length written /\
      output_json final = substring 0 (String.length written - 3) written ++ "]") /\
  (forall st st',
      loop_body trk_update float_repr linesep st = Ok st' ->
      exists rois aggs spreads s,
        dumps float_repr (PDict (stamped (frame_counter st') rois aggs spreads)) = Ok s /\
        output_json st'
        = output_json st ++ translate_newlines linesep (s ++ "," ++ LF)).
Proof.
  intros H. split.
  - apply main_for_output in H as (records & texts & H1 & H2 & _ & H3).
    exists records, texts. auto.
  - intros st st' Hb.
    apply loop_body_inv in Hb as (f & rois & aggs & spreads & s & _ & _ & _ & Hs & Ho).
    exists rois, aggs, spreads, s. split; [exact Hs |].
    rewrite Ho. rewrite translate_newlines_app. cbn. now rewrite append_nil_r.
Qed.

(** Where the line end is one byte, the three bytes removed are the
    line end, the comma and the closing brace of the last record: the
    file ends with an object that is not closed. *)
Lemma main_for_posix_output (n : nat) (video : list (frame A)) (final : loop_state A handle) :
  linesep = LF ->
  main_for trk_init trk_update np_median np_std float_repr linesep (S n) video = Ok final ->
  exists texts body,
    List.length texts = n /\
    output_json final = "[" ++ records_text LF texts ++ "{" ++ body ++ "]".
Proof.
  intros E H.
  apply main_for_output in H as (records & texts & Hlen & [Hall _] & _ & _ & Ho).
  rewrite E in Ho.
  assert (Htexts : List.length texts = S n)
    by (rewrite <- Hlen; symmetry; eapply Forall2_length; exact Hall).
  destruct (exists_last (l := texts)) as (texts' & t & ->);
    [intros ->; discriminate Htexts |].
  apply Forall2_app_inv_r in Hall as (r1 & r2 & _ & Hlast & _).
  inversion Hlast as [| d t0 r2' l2' Hd Hnil]; subst.
  apply dumps_dict_braces in Hd as [body ->].
  exists texts', body. split.
  - rewrite length_app in Htexts. cbn in Htexts. lia.
  - rewrite Ho.
    rewrite records_text_app. cbn [records_text].
    rewrite translate_newlines_posix, append_nil_r.
    replace ("[" ++ records_text LF texts' ++ ("{" ++ body ++ "}") ++ "," ++ LF)
      with (("[" ++ records_text LF texts' ++ "{" ++ body) ++ ("}" ++ "," ++ LF))
      by (rewrite !append_assoc; reflexivity).
    change 3 with (String.length ("}" ++ "," ++ LF)).
    rewrite substring_drop_end.
    rewrite !append_assoc. reflexivity.
Qed.

(** Where the line end is two bytes, the three bytes removed are the
    comma and the line end after the last record: the records are
    separated by commas, with no comma before the closing bracket. *)
Lemma main_for_crlf_output (n : nat) (video : list (frame A)) (final : loop_state A handle) :
  String.length linesep = 2 ->
  main_for trk_init trk_update np_median np_std float_repr linesep (S n) video = Ok final ->
  exists texts t,
    List.length texts = n /\
    output_json final
    = "[" ++ records_text linesep texts ++ translate_newlines linesep t ++ "]".
Proof.
  intros Hsep H.
  apply main_for_output in H as (records & texts & Hlen & [Hall _] & _ & _ & Ho).
  assert (Htexts : List.length texts = S n)
    by (rewrite <- Hlen; symmetry; eapply Forall2_length; exact Hall).
  destruct (exists_last (l := texts)) as (texts' & t & ->);
    [intros ->; discriminate Htexts |].
  exists texts', t. split.
  - rewrite length_app in Htexts. cbn in Htexts. lia.
  - rewrite Ho.
    rewrite records_text_app. cbn [records_text]. rewrite append_nil_r.
    replace ("[" ++ records_text linesep texts'
             ++ translate_newlines linesep t ++ "," ++ linesep)
      with (("[" ++ records_text linesep texts' ++ translate_newlines linesep t)
            ++ ("," ++ linesep))
      by (rewrite !append_assoc; reflexivity).
    replace 3 with (String.length ("," ++ linesep)) by (cbn; now rewrite Hsep).
    rewrite substring_drop_end.
    rewrite !append_assoc. reflexivity.
Qed.

End MainFacts.

Lemma framing_protocol_witness :
  exists final,
    main_for Demo.steady_init Demo.steady_update Demo.median5 Demo.std2
      float_repr_integral LF 2 (Demo.video 3) = Ok final /\
    exists records texts,
      List.length records = 2 /\
      run_records float_repr_integral 0 records texts /\
      let written := "[" ++ records_text LF texts in
      3 <= String.length written /\
      output_json final = substring 0 (String.length written - 3) written ++ "]".
Proof.
  destruct (main_for Demo.steady_init Demo.steady_update Demo.median5 Demo.std2
              float_repr_integral LF 2 (Demo.video 3)) as [final | e] eqn:E.
  - exists final. split; [reflexivity |].
    exact (proj1 (@framing_protocol _ _ _ _ _ _ _ _ _ _ _ E)).
  - vm_compute in E. discriminate E.
Defined.

(** C1 on a platform whose line end is one byte: after a session of
    three frames with the driver's two regions, [Output.json] ends with
    the value of the last field followed by "]", the closing brace of
    the third object having been cut with the comma and the line end;
    the text is not valid JSON, so it is not a sequence of three
    objects. *)
Theorem posix_session_is_not_json :
  exists text,
    Demo.session LF 3 = Ok text /\
    text_end 4 text = "2.0]" /\
    loads text = None /\
    is_session_output 3 text = false.
Proof.
  eexists. split; [vm_compute; reflexivity |].
  repeat split; vm_compute; reflexivity.
Qed.

(** The same session where the line end is two bytes: there the three
    bytes cut are the comma and the line end, and the file reads back
    as three objects numbered 1, 2, 3. *)
Lemma crlf_session_is_json :
  exists text,
    Demo.session (CR ++ LF) 3 = Ok text /\
    text_end 5 text = "2.0}]" /\
    is_session_output 3 text = true.
Proof.
  eexists. split; [vm_compute; reflexivity |].
  repeat split; vm_compute; reflexivity.
Qed.

(* ================================================================= *)
(** ** Remarks *)

(** The success flag only decides whether the warning is printed: two
    multi-trackers that hand back the same rectangles, one reporting
    failure and one success, make [update] end the same way. *)
Lemma flag_only_prints {V A handle : Type}
  (trk1 trk2 : handle -> V -> box -> result (bool * box * handle))
  (t : tracker A handle) vis infra out succ rois mt :
  MultiTracker_update trk1 (tracker_multi t) vis = Ok (succ, rois, mt) ->
  MultiTracker_update trk2 (tracker_multi t) vis = Ok (true, rois, mt) ->
  match tracker_update trk1 t vis infra out, tracker_update trk2 t vis infra out with
  | Ok (t1, out1, res1), Ok (t2, out2, res2) =>
      t1 = t2 /\ res1 = res2 /\ out2 = out /\
      out1 = if succ then out else (out ++ [warning])%list
  | Raise e1, Raise e2 => e1 = e2
  | _, _ => False
  end.
Proof.
  intros H1 H2. unfold tracker_update. rewrite H1, H2. cbn [bind negb].
  destruct (spread_func t) as [spread |].
  - destruct (for_each _ rois ([], [])) as [[aggs spreads] | e]; cbn [bind];
      [| reflexivity].
    destruct succ; auto.
  - destruct (for_each _ rois []) as [aggs | e]; cbn [bind]; [| reflexivity].
    destruct succ; auto.
Qed.

(** What the finiteness of the rectangles is needed for: [int] raises
    on a coordinate that is not a number, also when the flag is true. *)
Lemma update_raises_on_nan_rectangle :
  let t := mkTracker [(tt, mkBox 10 100 30 50)] Demo.median5 (Some Demo.std2) in
  tracker_update Demo.nan_update t [[1; 2]; [3; 4]] [[1; 2]; [3; 4]] [] = Raise ValueError.
Proof. reflexivity. Qed.

(** The script itself, which processes 500 frames: where the line end
    is one byte, the file it leaves ends with an object that is not
    closed. *)
Lemma main_posix_output {A handle : Type}
  (trk_init : frame A -> box -> result handle)
  (trk_update : handle -> frame A -> box -> result (bool * box * handle))
  (np_median np_std : frame A -> float) (float_repr : float -> string)
  (video : list (frame A)) (final : loop_state A handle) :
  main trk_init trk_update np_median np_std float_repr LF video = Ok final ->
  exists texts body,
    List.length texts = 499 /\
    output_json final = "[" ++ records_text LF texts ++ "{" ++ body ++ "]".
Proof.
  unfold main, frames_to_process. intros H.
  eapply main_for_posix_output; [reflexivity | exact H].
Qed.

(* ================================================================= *)
(** * Further properties of the code *)

(* ================================================================= *)
(** ** Frames of any size *)

(** X1: [stryker] never fails on a frame of the wrong size, it cuts:
    the visible panel has the first 360 rows of the frame or fewer, the
    infrared panel the rows after them up to 360 of them (none when the
    frame has 360 rows or fewer), and no row of a panel is longer than
    480. *)
Theorem stryker_sizes {A} (f : frame A) :
  List.length (fst (stryker f)) = Nat.min 360 (List.length f) /\
  List.length (snd (stryker f)) = Nat.min 360 (List.length f - 360) /\
  Forall (fun row => List.length row <= 480) (fst (stryker f)) /\
  Forall (fun row => List.length row <= 480) (snd (stryker f)).
Proof.
  rewrite stryker_eq. cbn [fst snd].
  assert (Hrow : forall l : frame A,
             Forall (fun row => List.length row <= 480) (map (firstn 480) l)).
  { intros l. apply Forall_map, Forall_forall. intros row _.
    apply firstn_le_length. }
  repeat split; try apply Hrow.
  - now rewrite length_map, length_firstn.
  - now rewrite length_map, length_firstn, length_skipn.
Qed.

Lemma box_to_slice_ok_iff (b : box) : is_ok (box_to_slice b) = box_finite b.
Proof.
  unfold box_to_slice, box_finite, is_finite, PyFloat.int.
  destruct (Prim2SF (top b)); cbn [bind is_ok andb]; try reflexivity;
    destruct (Prim2SF (top b + height b)); cbn [bind is_ok andb]; try reflexivity;
    destruct (Prim2SF (left b)); cbn [bind is_ok andb]; try reflexivity;
    destruct (Prim2SF (left b + width b)); reflexivity.
Qed.

(** X2: [box_to_slice] raises exactly when one of the four bounds it
    converts (top, top+height, left, left+width) is NaN or infinite; a
    NaN top gives [ValueError] and an infinite top [OverflowError]. *)
Theorem box_to_slice_raises (b : box) :
  is_ok (box_to_slice b) = box_finite b /\
  (Prim2SF (top b) = S754_nan -> box_to_slice b = Raise ValueError) /\
  (forall s, Prim2SF (top b) = S754_infinity s -> box_to_slice b = Raise OverflowError).
Proof.
  split; [apply box_to_slice_ok_iff |].
  unfold box_to_slice, PyFloat.int. split.
  - intros ->. reflexivity.
  - intros s ->. reflexivity.
Qed.

Lemma box_to_slice_raises_witness :
  box_to_slice (mkBox 10 nan 30 50) = Raise ValueError /\
  box_to_slice (mkBox 10 infinity 30 50) = Raise OverflowError.
Proof.
  split.
  - exact (proj1 (proj2 (box_to_slice_raises (mkBox 10 nan 30 50))) eq_refl).
  - exact (proj2 (proj2 (box_to_slice_raises (mkBox 10 infinity 30 50))) false eq_refl).
Defined.

(** X3: indexing a frame with the slices of a rectangle whose bounds
    are not negative never fails and never reads outside the frame: the
    selection has the rows of the range that exist, which is none when
    the rectangle starts below the frame, and no row of it is wider than
    the column range. *)
Theorem selection_is_clipped {A} (t tb l lr : Z) (f : frame A) :
  (0 <= t)%Z -> (0 <= tb)%Z -> (0 <= l)%Z -> (0 <= lr)%Z ->
  let sel := index2 (mkSlice (Some t) (Some tb), mkSlice (Some l) (Some lr)) f in
  List.length sel
  = Nat.min (Z.to_nat tb) (List.length f) - Nat.min (Z.to_nat t) (List.length f) /\
  Forall (fun row => List.length row <= Z.to_nat lr - Z.to_nat l) sel.
Proof.
  intros Ht Htb Hl Hlr. cbv zeta. unfold index2. cbn [fst snd]. split.
  - rewrite length_map, getslice_nonneg by assumption.
    rewrite length_firstn, length_skipn. lia.
  - apply Forall_map, Forall_forall. intros row _.
    rewrite getslice_nonneg by assumption. apply firstn_le_length.
Qed.

Lemma selection_is_clipped_witness :
  let f : frame nat := repeat (repeat 7 480) 360 in
  List.length (index2 (mkSlice (Some 340%Z) (Some 400%Z),
                       mkSlice (Some 10%Z) (Some 40%Z)) f) = 20.
Proof.
  intros f.
  destruct (@selection_is_clipped nat 340 400 10 40 f
              ltac:(lia) ltac:(lia) ltac:(lia) ltac:(lia)) as [H _].
  rewrite H. unfold f. rewrite repeat_length. reflexivity.
Defined.

(** X4: a rectangle that sticks out above the frame is not cut to its
    visible part: its negative top counts from the bottom of the frame,
    and when the bottom of the rectangle is above that row the selection
    is empty. *)
Theorem rectangle_above_frame_selects_nothing {A} (b : box) (ix : slice * slice)
  (t tb : Z) (f : frame A) :
  box_to_slice b = Ok ix ->
  PyFloat.int (top b) = Ok t ->
  PyFloat.int (top b + height b) = Ok tb ->
  (t < 0)%Z -> (0 <= tb)%Z -> (tb <= Z.of_nat (List.length f) + t)%Z ->
  index2 ix f = [].
Proof.
  unfold box_to_slice. intros H Ht Htb Hneg Hpos Hle.
  rewrite Ht, Htb in H. cbn [bind] in H.
  apply bind_ok in H as (c0 & _ & H). apply bind_ok in H as (c1 & _ & H).
  injection H as <-. unfold index2. cbn [fst snd].
  unfold getslice at 2. unfold slice_indices. cbn [start stop].
  unfold clamp_index.
  destruct (Z.ltb_spec t 0) as [_ | ?]; [| lia].
  destruct (Z.ltb_spec tb 0) as [? | _]; [lia |].
  replace (Z.to_nat (Z.max 0 (Z.min (Z.of_nat (List.length f)) tb))
           - Z.to_nat (Z.max 0 (Z.min (Z.of_nat (List.length f))
                                  (t + Z.of_nat (List.length f))))) with 0 by lia.
  reflexivity.
Qed.

Lemma rectangle_above_frame_selects_nothing_witness :
  let f : frame nat := repeat (repeat 7 480) 360 in
  exists ix, box_to_slice (mkBox 10 (-5) 30 50) = Ok ix /\ index2 ix f = [].
Proof.
  intros f. eexists. split; [reflexivity |].
  apply (@rectangle_above_frame_selects_nothing nat (mkBox 10 (-5) 30 50) _ (-5) 45 f
           eq_refl eq_refl eq_refl).
  - lia.
  - lia.
  - unfold f. rewrite repeat_length. lia.
Defined.

(** X5: the two steps of the driver composed: on a combined frame of
    at least 720 rows of at least 480 pixels, the pixel at row [r] and
    column [c] of what [update] hands to the reducers for a rectangle
    is the pixel of the combined frame 360 rows below the rectangle's
    own position, at row 360 + trunc(top) + r and column
    trunc(left) + c, as long as that stays inside the infrared panel. *)
Theorem infrared_under_rectangle {A} (f : frame A) (b : box)
  (t tb l lr : Z) (r c : nat) :
  720 <= List.length f ->
  Forall (fun row => 480 <= List.length row) f ->
  PyFloat.int (top b) = Ok t -> PyFloat.int (top b + height b) = Ok tb ->
  PyFloat.int (left b) = Ok l -> PyFloat.int (left b + width b) = Ok lr ->
  (0 <= t)%Z -> (0 <= tb)%Z -> (0 <= l)%Z -> (0 <= lr)%Z ->
  exists ix,
    box_to_slice b = Ok ix /\
    (pixel (index2 ix (snd (stryker f))) r c <> None ->
     pixel (index2 ix (snd (stryker f))) r c
     = pixel f (360 + Z.to_nat t + r) (Z.to_nat l + c)).
Proof.
  intros Hrows Hcols Ht Htb Hl Hlr Pt Ptb Pl Plr.
  unfold box_to_slice. rewrite Ht, Htb, Hl, Hlr. cbn [bind].
  eexists. split; [reflexivity |].
  rewrite pixel_index2 by assumption.
  destruct ((Z.of_nat r <? tb - t)%Z && (Z.of_nat c <? lr - l)%Z);
    [| intros H; now elim H].
  rewrite stryker_eq. cbn [snd]. unfold pixel.
  rewrite nth_error_map, nth_error_firstn, nth_error_skipn.
  destruct (Nat.ltb (Z.to_nat t + r) 360); [| intros H; now elim H].
  rewrite Nat.add_assoc.
  destruct (nth_error f (360 + Z.to_nat t + r)) as [row |]; cbn [option_map];
    [| intros H; now elim H].
  rewrite nth_error_firstn.
  destruct (Nat.ltb (Z.to_nat l + c) 480); [reflexivity | intros H; now elim H].
Qed.

Lemma infrared_under_rectangle_witness :
  let f : frame nat := repeat (repeat 7 480) 720 in
  exists ix,
    box_to_slice (mkBox 10 100 30 50) = Ok ix /\
    pixel (index2 ix (snd (stryker f))) 2 3 = pixel f 462 13.
Proof.
  intros f.
  assert (H1 : 720 <= List.length f) by (unfold f; rewrite repeat_length; lia).
  assert (H2 : Forall (fun row => 480 <= List.length row) f).
  { unfold f. apply Forall_forall. intros row Hin.
    apply repeat_spec in Hin. subst row. rewrite repeat_length. lia. }
  destruct (@infrared_under_rectangle nat f (mkBox 10 100 30 50) 100 150 10 40 2 3
              H1 H2 eq_refl eq_refl eq_refl eq_refl
              ltac:(lia) ltac:(lia) ltac:(lia) ltac:(lia)) as (ix & Hix & Hpix).
  exists ix. split; [exact Hix |].
  apply Hpix. vm_compute in Hix. injection Hix as <-.
  vm_compute. discriminate.
Defined.

(* ================================================================= *)
(** ** The record, entry by entry *)

Lemma dict_set_app_fresh (k : string) (v : pyval) (P Q : pydict) :
  ~ In k (map fst P) -> dict_set k v (P ++ Q)%list = (P ++ dict_set k v Q)%list.
Proof.
  induction P as [| [k0 v0] P IH]; cbn [app map fst dict_set In]; intros H.
  - reflexivity.
  - destruct (String.eqb_spec k0 k) as [E | _]; [elim H; now left |].
    rewrite IH; [reflexivity |]. intros Hin. apply H. now right.
Qed.

Lemma dict_set_hit (k : string) (v v0 : pyval) (Q : pydict) :
  dict_set k v ((k, v0) :: Q) = (k, v) :: Q.
Proof. cbn [dict_set]. now rewrite String.eqb_refl. Qed.

Lemma dict_set_skip (k k0 : string) (v v0 : pyval) (Q : pydict) :
  k0 <> k -> dict_set k v ((k0, v0) :: Q) = (k0, v0) :: dict_set k v Q.
Proof.
  intros H. cbn [dict_set]. now destruct (String.eqb_spec k0 k).
Qed.

Lemma fresh_from_keys (j : nat) (P : pydict) :
  fresh_from j P ->
  ~ In (roi_key j) (map fst P) /\ ~ In (intensity_key j) (map fst P)
  /\ ~ In (spread_key j) (map fst P).
Proof.
  intros H. repeat split; intros Hin;
    destruct (H _ j Hin (Nat.le_refl j)) as (H1 & H2 & H3); congruence.
Qed.

Lemma fresh_from_region (j : nat) (P : pydict) r a s :
  fresh_from j P -> fresh_from (S j) (P ++ region_fields r a j s)%list.
Proof.
  intros H k i Hin Hi. rewrite map_app, in_app_iff in Hin.
  destruct Hin as [Hin | Hin]; [apply (H k i Hin); lia |].
  unfold region_fields in Hin. cbn [map fst In] in Hin.
  destruct Hin as [<- | [<- | [<- | []]]]; repeat split;
    auto with keys; intros E;
    (apply roi_key_inj in E || apply intensity_key_inj in E
     || apply spread_key_inj in E); lia.
Qed.

(** One pass of the body on a dictionary that has the three keys of
    region [j] rewrites them where they are. *)
Lemma dict_body_overwrites r a j s r' a' s' (P Q : pydict) :
  fresh_from j P ->
  dict_body r a j s (P ++ region_fields r' a' j s' ++ Q)%list
  = (P ++ region_fields r a j s ++ Q)%list.
Proof.
  intros H. destruct (fresh_from_keys H) as (H1 & H2 & H3).
  rewrite dict_body_eq. unfold region_fields. cbn [app].
  rewrite (@dict_set_app_fresh _ _ _ _ H1), dict_set_hit.
  rewrite (@dict_set_app_fresh _ _ _ _ H2), dict_set_skip, dict_set_hit
    by auto with keys.
  rewrite (@dict_set_app_fresh _ _ _ _ H3), !dict_set_skip, dict_set_hit
    by auto with keys.
  reflexivity.
Qed.

(** On a dictionary that has none of them, it adds them at the end. *)
Lemma dict_body_appends r a j s (P : pydict) :
  fresh_from j P -> dict_body r a j s P = (P ++ region_fields r a j s)%list.
Proof.
  intros H. destruct (fresh_from_keys H) as (H1 & H2 & H3).
  rewrite dict_body_eq. unfold region_fields.
  rewrite <- (app_nil_r P) at 1.
  rewrite (@dict_set_app_fresh _ _ _ _ H1). cbn [dict_set].
  rewrite (@dict_set_app_fresh _ _ _ _ H2), dict_set_skip by auto with keys.
  cbn [dict_set].
  rewrite (@dict_set_app_fresh _ _ _ _ H3), !dict_set_skip by auto with keys.
  reflexivity.
Qed.

Lemma spread_fold_appends r a (spreads : list float) (j : nat) (P : pydict) :
  fresh_from j P ->
  fold_left (fun d '(i, s) => dict_body r a i s d) (enumerate_from j spreads) P
  = (P ++ regions_from r a j spreads)%list.
Proof.
  revert j P. induction spreads as [| s spreads IH]; intros j P H.
  - cbn. now rewrite app_nil_r.
  - cbn [enumerate_from fold_left regions_from].
    rewrite dict_body_appends by assumption.
    rewrite IH by now apply fresh_from_region.
    now rewrite <- app_assoc.
Qed.

Lemma spread_fold_overwrites r a r' a' (spreads : list float) (j : nat) (P : pydict) :
  fresh_from j P ->
  fold_left (fun d '(i, s) => dict_body r a i s d) (enumerate_from j spreads)
    (P ++ regions_from r' a' j spreads)%list
  = (P ++ regions_from r a j spreads)%list.
Proof.
  revert j P. induction spreads as [| s spreads IH]; intros j P H.
  - reflexivity.
  - cbn [enumerate_from fold_left regions_from].
    rewrite dict_body_overwrites by assumption.
    rewrite app_assoc, IH by now apply fresh_from_region.
    now rewrite <- app_assoc.
Qed.

Lemma initial_dictionary_fresh : fresh_from 0 initial_dictionary.
Proof.
  intros k i Hin _. cbn in Hin. destruct Hin as [<- | []].
  repeat split; auto with keys.
Qed.

Lemma spread_loop_built r a spreads d :
  built_for spreads d -> spread_loop r a spreads d = record_of r a spreads.
Proof.
  unfold spread_loop, enumerate, record_of. intros [-> | (r' & a' & ->)].
  - apply spread_fold_appends, initial_dictionary_fresh.
  - apply spread_fold_overwrites, initial_dictionary_fresh.
Qed.

Lemma intensity_loop_built r aggs spreads d :
  built_for spreads d -> built_for spreads (intensity_loop r aggs spreads d).
Proof.
  intros H. unfold intensity_loop. apply fold_left_preserves; [| exact H].
  intros d0 [_ a] H0. right. exists r, a. now apply spread_loop_built.
Qed.

Lemma convert_to_dict_built rois aggs spreads :
  built_for spreads (convert_to_dict rois aggs spreads).
Proof.
  rewrite convert_to_dict_loops. apply fold_left_preserves; [| now left].
  intros d [_ r] H. now apply intensity_loop_built.
Qed.

(** X6: with at least one rectangle and one aggregate, the record
    [convert_to_dict] returns is exactly: the placeholder under
    [frame_number], then for every index [i] of the spread list, in
    order, [roi{i}], [intensity{i}], [spread_intensity{i}], built from
    the last rectangle, the last aggregate and spread [i].  The number
    of regions in the record is the length of the spread list, whatever
    the lengths of the other two. *)
Theorem convert_to_dict_closed_form (rois : list box) (aggs spreads : list float) :
  rois <> [] -> aggs <> [] ->
  convert_to_dict rois aggs spreads
  = record_of (last rois (mkBox 0 0 0 0)) (last aggs 0%float) spreads.
Proof.
  intros Hr Ha.
  destruct (exists_last Hr) as (rois' & r & ->).
  destruct (exists_last Ha) as (aggs' & a & ->).
  rewrite !last_last.
  rewrite convert_to_dict_snoc, intensity_loop_snoc.
  apply spread_loop_built, intensity_loop_built, convert_to_dict_built.
Qed.

Lemma convert_to_dict_closed_form_witness :
  convert_to_dict rois0 [5; 7]%float [1; 2; 3]%float
  = record_of (mkBox 100 100 50 30) 7 [1; 2; 3]%float.
Proof.
  apply (@convert_to_dict_closed_form rois0 [5; 7]%float [1; 2; 3]%float);
    unfold rois0; intros E; apply (f_equal (@List.length _)) in E; discriminate E.
Defined.

(** X7: when the rectangle list, the aggregate list or the spread
    list is empty, [convert_to_dict] writes no region at all: it
    returns the dictionary it started from, which holds only the
    placeholder under [frame_number]. *)
Theorem convert_to_dict_empty (rois : list box) (aggs spreads : list float) :
  rois = [] \/ aggs = [] \/ spreads = [] ->
  convert_to_dict rois aggs spreads = initial_dictionary.
Proof.
  intros [-> | [-> | ->]].
  - reflexivity.
  - rewrite convert_to_dict_loops. apply fold_left_preserves; [| reflexivity].
    intros d [_ r] ->. reflexivity.
  - destruct (convert_to_dict_built rois aggs []) as [H | (r & a & H)]; exact H.
Qed.

Lemma convert_to_dict_empty_witness :
  convert_to_dict rois0 [] [1; 2]%float = initial_dictionary.
Proof.
  apply (@convert_to_dict_empty rois0 [] [1; 2]%float). right. left. reflexivity.
Defined.

(* ================================================================= *)
(** ** Writing a record *)

(** X8: the dictionary [convert_to_dict] returns cannot be written as
    it is: its [frame_number] still holds the placeholder, which has a
    set inside, and [convert_to_JSON_file] raises [TypeError] on it
    whatever the three lists were. *)
Theorem unstamped_record_is_rejected (float_repr : float -> string) (linesep : string)
  (rois : list box) (aggs spreads : list float) (file : string) :
  convert_to_JSON_file float_repr linesep (convert_to_dict rois aggs spreads) file
  = Raise TypeError.
Proof.
  unfold convert_to_JSON_file.
  destruct (convert_to_dict_built rois aggs spreads) as [-> | (r & a & ->)];
    reflexivity.
Qed.

(** X9: once the driver has put the frame number under [frame_number],
    [convert_to_JSON_file] cannot fail: it appends the serialised
    record, a comma and the line end to the file, and leaves what the
    file held in front of it. *)
Theorem stamped_record_is_written (float_repr : float -> string) (linesep : string)
  (rois : list box) (aggs spreads : list float) (n : Z) (file : string) :
  exists s,
    dumps float_repr
      (PDict (dict_set frame_number_key (PInt n) (convert_to_dict rois aggs spreads)))
    = Ok s /\
    convert_to_JSON_file float_repr linesep
      (dict_set frame_number_key (PInt n) (convert_to_dict rois aggs spreads)) file
    = Ok (file ++ translate_newlines linesep s ++ "," ++ linesep).
Proof.
  destruct (stamped_record_serialisable rois aggs spreads n) as [Hser _].
  destruct (dumps_total float_repr _ Hser) as [s Hs].
  exists s. split; [exact Hs |].
  unfold convert_to_JSON_file. rewrite Hs. cbn [bind].
  now rewrite append_text_record.
Qed.

(** X10: whatever its three arguments, [convert_to_dict] never returns
    a record with a NaN under an [intensity{i}] or a
    [spread_intensity{i}] key. *)
Theorem record_has_no_nan (rois : list box) (aggs spreads : list float) (i : nat) (v : pyval) :
  dict_get (intensity_key i) (convert_to_dict rois aggs spreads) = Some v \/
  dict_get (spread_key i) (convert_to_dict rois aggs spreads) = Some v ->
  is_nan_value v = false.
Proof. apply convert_to_dict_never_nan. Qed.

Lemma record_has_no_nan_witness :
  is_nan_value (PInt (-1)) = false.
Proof.
  apply (@record_has_no_nan rois0 [nan; nan]%float [1; nan]%float 1 (PInt (-1))).
  left. reflexivity.
Defined.

(* ================================================================= *)
(** ** The tracker object *)

Section TrackerMore.

Variables V A handle : Type.
Variable trk_init : V -> box -> result handle.
Variable trk_update : handle -> V -> box -> result (bool * box * handle).

Lemma add_all_entries (v : V) (rois : list box) (mt0 mt : MultiTracker handle) :
  for_each (fun mt roi => MultiTracker_add trk_init mt v roi) rois mt0 = Ok mt ->
  exists added,
    mt = (mt0 ++ added)%list /\
    Forall2 (fun roi e => trk_init v roi = Ok (fst e) /\ snd e = roi) rois added.
Proof.
  revert mt0. induction rois as [| roi rois IH]; intros mt0 H.
  - cbn in H. injection H as <-. exists []. split; [now rewrite app_nil_r | constructor].
  - cbn [for_each] in H. apply bind_ok in H as (mt1 & Hadd & H).
    unfold MultiTracker_add in Hadd. apply bind_ok in Hadd as (h & Hh & Hadd).
    injection Hadd as <-. destruct (IH _ H) as (added & -> & Hall).
    exists ((h, roi) :: added). split; [now rewrite <- app_assoc |].
    constructor; [split; [exact Hh | reflexivity] | exact Hall].
Qed.

(** X11: a construction that succeeds has created one tracker per
    seed rectangle, in the order of the seed list, each initialised on
    the initial frame and its own seed, and has stored the two
    functions it was given. *)
Theorem tracker_init_regions (rois : list box) (init_vis : V)
  (agg : frame A -> float) (spread : option (frame A -> float)) (t : tracker A handle) :
  tracker_init trk_init rois init_vis agg spread = Ok t ->
  Forall2 (fun roi e => trk_init init_vis roi = Ok (fst e) /\ snd e = roi)
    rois (tracker_multi t) /\
  agg_func t = agg /\ spread_func t = spread.
Proof.
  unfold tracker_init. intros H. apply bind_ok in H as (mt & Hmt & H).
  injection H as <-. cbn [tracker_multi agg_func spread_func].
  apply add_all_entries in Hmt as (added & -> & Hall). auto.
Qed.

(** X12: a construction that fails has stopped at the first seed
    rectangle on which the initialisation of the underlying tracker
    raises, and raises that exception. *)
Theorem tracker_init_first_failure (rois : list box) (init_vis : V)
  (agg : frame A -> float) (spread : option (frame A -> float)) (e : exn) :
  tracker_init trk_init rois init_vis agg spread = Raise e ->
  exists before roi after,
    rois = (before ++ roi :: after)%list /\
    Forall (fun r => is_ok (trk_init init_vis r) = true) before /\
    trk_init init_vis roi = Raise e.
Proof.
  unfold tracker_init. intros H.
  assert (Hloop : for_each (fun mt roi => MultiTracker_add trk_init mt init_vis roi)
                    rois (MultiTracker_create handle) = Raise e).
  { destruct (for_each _ rois _); cbn [bind] in H; [discriminate H |].
    injection H as ->. reflexivity. }
  clear H. revert Hloop. generalize (MultiTracker_create handle).
  induction rois as [| roi rois IH]; intros mt0 H; [discriminate H |].
  cbn [for_each] in H. unfold MultiTracker_add at 1 in H.
  destruct (trk_init init_vis roi) as [h | e0] eqn:Einit; cbn [bind] in H.
  - destruct (IH _ H) as (before & roi' & after & -> & Hall & Hroi).
    exists (roi :: before), roi', after. repeat split; [| exact Hroi].
    constructor; [now rewrite Einit | exact Hall].
  - injection H as <-. exists [], roi, rois. repeat split; [constructor | exact Einit].
Qed.




(** X14: what [update] does besides measuring: the rectangles it
    returns are the ones the multi-tracker handed back, in its order;
    the object keeps its two functions and holds the updated trackers;
    and the warning is printed exactly when the multi-tracker's flag is
    false, nothing being printed otherwise. *)
Theorem update_state_and_output (t : tracker A handle) vis infra out
  succ boxes mt t' out' rois aggs sp :
  MultiTracker_update trk_update (tracker_multi t) vis = Ok (succ, boxes, mt) ->
  tracker_update trk_update t vis infra out = Ok (t', out', (rois, aggs, sp)) ->
  rois = boxes /\
  t' = mkTracker mt (agg_func t) (spread_func t) /\
  out' = if succ then out else (out ++ [warning])%list.
Proof.
  unfold tracker_update. intros Hu H. rewrite Hu in H. cbn [bind] in H.
  destruct (spread_func t) as [spread |].
  - cbv zeta in H. apply bind_ok in H as ([aggs1 spreads1] & _ & H).
    injection H as <- <- <- <- <-. now destruct succ.
  - apply bind_ok in H as (aggs1 & _ & H).
    injection H as <- <- <- <- <-. now destruct succ.
Qed.

Lemma agg_loop_ok (agg : frame A -> float) (infra : frame A) rois acc :
  is_ok (for_each (fun aggs roi =>
                     bind (box_to_slice roi) (fun ix =>
                     Ok (aggs ++ [agg (index2 ix infra)])%list)) rois acc)
  = forallb box_finite rois.
Proof.
  revert acc. induction rois as [| roi rois IH]; intros acc; [reflexivity |].
  cbn [for_each forallb]. rewrite <- box_to_slice_ok_iff.
  destruct (box_to_slice roi) as [ix | e]; cbn [bind is_ok andb]; [apply IH | reflexivity].
Qed.

Lemma spread_loop_ok (agg spread : frame A -> float) (infra : frame A) rois acc :
  is_ok (for_each (fun '(aggs, spreads) roi =>
                     bind (box_to_slice roi) (fun ix =>
                     bind (box_to_slice roi) (fun ix' =>
                     Ok ((aggs ++ [agg (index2 ix infra)])%list,
                         (spreads ++ [spread (index2 ix' infra)])%list)))) rois acc)
  = forallb box_finite rois.
Proof.
  revert acc. induction rois as [| roi rois IH]; intros [aggs spreads]; [reflexivity |].
  cbn [for_each forallb]. rewrite <- box_to_slice_ok_iff.
  destruct (box_to_slice roi) as [ix | e]; cbn [bind is_ok andb]; [apply IH | reflexivity].
Qed.

(** X15: [update] raises in two cases only: the multi-tracker raises,
    or one of the rectangles it hands back has a bound that is NaN or
    infinite.  The success flag, the infrared frame and the reducers
    play no part in it. *)
Theorem update_raises_iff (t : tracker A handle) vis infra out :
  is_ok (tracker_update trk_update t vis infra out)
  = match MultiTracker_update trk_update (tracker_multi t) vis with
    | Ok (_, rois, _) => forallb box_finite rois
    | Raise _ => false
    end.
Proof.
  unfold tracker_update.
  destruct (MultiTracker_update trk_update (tracker_multi t) vis)
    as [[[succ rois] mt] | e]; cbn [bind]; [| reflexivity].
  destruct (spread_func t) as [spread |]; cbv zeta.
  - rewrite <- (spread_loop_ok (agg_func t) spread infra rois ([], [])).
    destruct (for_each _ rois ([], [])) as [[aggs spreads] | e]; reflexivity.
  - rewrite <- (agg_loop_ok (agg_func t) infra rois []).
    destruct (for_each _ rois []) as [aggs | e]; reflexivity.
Qed.

End TrackerMore.

Lemma tracker_init_regions_witness :
  exists t,
    tracker_init Demo.steady_init rois0 [[1; 2]; [3; 4]] Demo.median5 (Some Demo.std2) = Ok t /\
    Forall2 (fun roi e => Demo.steady_init [[1; 2]; [3; 4]] roi = Ok (fst e) /\ snd e = roi)
      rois0 (tracker_multi t).
Proof.
  eexists. split; [reflexivity |].
  exact (proj1 (@tracker_init_regions _ _ _ Demo.steady_init rois0 [[1; 2]; [3; 4]]
                  Demo.median5 (Some Demo.std2) _ eq_refl)).
Defined.

Lemma tracker_init_first_failure_witness :
  exists before roi after,
    rois0 = (before ++ roi :: after)%list /\
    Forall (fun r => is_ok (Demo.picky_init [[1; 2]; [3; 4]] r) = true) before /\
    Demo.picky_init [[1; 2]; [3; 4]] roi = Raise CvError.
Proof.
  apply (@tracker_init_first_failure _ nat _ Demo.picky_init rois0 [[1; 2]; [3; 4]]
           Demo.median5 (Some Demo.std2) CvError).
  reflexivity.
Defined.


Lemma update_state_and_output_witness :
  let t := mkTracker [(tt, mkBox 10 100 30 50); (tt, mkBox 100 100 50 30)]
             Demo.median5 (Some Demo.std2) in
  exists t' out' rois aggs sp,
    tracker_update Demo.drift_update t [[1; 2]; [3; 4]] [[1; 2]; [3; 4]] []
    = Ok (t', out', (rois, aggs, sp)) /\
    rois = [mkBox 11 100 30 50; mkBox 101 100 50 30] /\
    tracker_multi t' = [(tt, mkBox 11 100 30 50); (tt, mkBox 101 100 50 30)] /\
    out' = [warning].
Proof.
  intros t. do 5 eexists. split; [reflexivity |].
  destruct (@update_state_and_output _ _ _ Demo.drift_update t
              [[1; 2]; [3; 4]] [[1; 2]; [3; 4]] [] _ _ _ _ _ _ _ _ eq_refl eq_refl)
    as (H1 & H2 & H3).
  repeat split; reflexivity.
Defined.

(* ================================================================= *)
(** ** The driver *)

Section MainMore.

Variable A : Type.
Variable handle : Type.
Variable trk_init : frame A -> box -> result handle.
Variable trk_update : handle -> frame A -> box -> result (bool * box * handle).
Variable np_median : frame A -> float.
Variable np_std : frame A -> float.
Variable float_repr : float -> string.
Variable linesep : string.

Lemma loop_frames (n : nat) (st st' : loop_state A handle) :
  loop trk_update float_repr linesep n st = Ok st' ->
  n <= List.length (cap st) /\ cap st' = skipn n (cap st).
Proof.
  revert st. induction n as [| n IH]; intros st H.
  - cbn in H. injection H as <-. split; [lia | reflexivity].
  - cbn [loop] in H. apply bind_ok in H as (st1 & Hbody & H).
    apply loop_body_inv in Hbody as (f & _ & _ & _ & _ & Hcap & _).
    destruct (IH _ H) as [Hlen Hskip]. rewrite Hcap. cbn [List.length skipn].
    split; [lia | exact Hskip].
Qed.

(** X16: a run of the driver that ends has processed at least one
    frame, has read one frame to seed the tracker and one per
    iteration, all of which the video had, and has counted the
    iterations: asked for [n] frames it needs [n + 1] of them and stops
    with an exception otherwise, and asked for none it fails when it
    closes the file. *)
Theorem main_for_reads_frames (n : nat) (video : list (frame A))
  (final : loop_state A handle) :
  main_for trk_init trk_update np_median np_std float_repr linesep n video = Ok final ->
  1 <= n /\ n + 1 <= List.length video /\
  cap final = skipn (n + 1) video /\ frame_counter final = n.
Proof.
  intros H. pose proof (main_for_output _ _ _ _ _ _ _ _ H) as Hout.
  destruct Hout as (records & texts & Hlen & [Hall _] & Hc & Hw & _).
  unfold main_for in H. destruct video as [| frame0 video']; [discriminate H |].
  unfold stryker in H.
  apply bind_ok in H as (trk & _ & H).
  apply bind_ok in H as (st1 & Hloop & H).
  apply bind_ok in H as (file & _ & H). injection H as <-.
  apply loop_frames in Hloop as [Hn Hskip]. cbn [cap] in Hn, Hskip.
  cbn [cap frame_counter] in *. rewrite Nat.add_1_r. cbn [List.length skipn].
  repeat split; try assumption; try lia.
  destruct n as [| n]; [| lia].
  destruct records; [| discriminate Hlen]. inversion Hall; subst.
  cbn in Hw. lia.
Qed.

(** X17: the driver's loop needs a spread function: when the tracker
    was built without one, [update] returns a pair, which the driver
    cannot unpack into three names, and the iteration raises. *)
Theorem loop_needs_spread_function (st : loop_state A handle) :
  spread_func (vanilla st) = None ->
  is_ok (loop_body trk_update float_repr linesep st) = false.
Proof.
  intros Hnone.
  destruct (loop_body trk_update float_repr linesep st) as [st' |] eqn:E; [| reflexivity].
  apply loop_body_inv in E as (f & rois & aggs & spreads & s & _ & Hu & _).
  apply tracker_update_shape in Hu as (_ & _ & [Hsome _] & _).
  now elim Hsome.
Qed.

End MainMore.

Lemma main_for_reads_frames_witness :
  exists final,
    main_for Demo.steady_init Demo.steady_update Demo.median5 Demo.std2
      float_repr_integral LF 2 (Demo.video 4) = Ok final /\
    cap final = skipn 3 (Demo.video 4) /\ frame_counter final = 2.
Proof.
  destruct (main_for Demo.steady_init Demo.steady_update Demo.median5 Demo.std2
              float_repr_integral LF 2 (Demo.video 4)) as [final | e] eqn:E.
  - exists final. split; [reflexivity |].
    destruct (@main_for_reads_frames _ _ _ _ _ _ _ _ _ _ _ E) as (_ & _ & H1 & H2).
    split; assumption.
  - vm_compute in E. discriminate E.
Defined.

Lemma loop_needs_spread_function_witness :
  let t := mkTracker [(tt, mkBox 10 100 30 50)] Demo.median5 None in
  is_ok (loop_body Demo.steady_update float_repr_integral LF
           (mkLoop (Demo.video 1) t 0 "[" [])) = false.
Proof.
  intros t.
  apply (@loop_needs_spread_function nat unit Demo.steady_update float_repr_integral LF
           (mkLoop (Demo.video 1) t 0 "[" [])).
  reflexivity.
Defined.

(* ================================================================= *)
(** ** Drawing *)



(* ================================================================= *)
(** ** The two panels together *)

(** X20: the two panels [stryker] returns, one after the other, are
    exactly the first 720 rows of the frame cut to their first 480
    pixels: no pixel of that window is lost and none is in both
    panels, whatever the size of the frame. *)
Theorem stryker_partitions_window {A} (f : frame A) :
  (fst (stryker f) ++ snd (stryker f))%list = map (firstn 480) (firstn 720 f).
Proof.
  rewrite stryker_eq. cbn [fst snd]. rewrite <- map_app. f_equal.
  rewrite (firstn_skipn_comm 360 360 f). change (360 + 360) with 720.
  transitivity (firstn 360 (firstn 720 f) ++ skipn 360 (firstn 720 f))%list.
  - f_equal. rewrite firstn_firstn. reflexivity.
  - apply firstn_skipn.
Qed.

(** X21: [stryker] reads nothing outside that window: a frame and its
    first 720 rows cut to 480 pixels give the same two panels. *)
Theorem stryker_reads_window_only {A} (f : frame A) :
  stryker (map (firstn 480) (firstn 720 f)) = stryker f.
Proof.
  rewrite !stryker_eq. f_equal.
  - rewrite firstn_map, firstn_firstn, map_map. cbn [Nat.min].
    apply map_ext. intros row. now rewrite firstn_firstn.
  - rewrite skipn_map, firstn_map, map_map.
    rewrite skipn_firstn_comm. change (720 - 360) with 360.
    rewrite firstn_firstn. cbn [Nat.min].
    apply map_ext. intros row. now rewrite firstn_firstn.
Qed.



(* ================================================================= *)
(** ** Truncation *)

(** [int] of a finite float is the truncation toward zero of the number
    it stands for. *)
Lemma int_is_truncation (x : float) (q : QArith_base.Q) :
  float_value x = Some q -> PyFloat.int x = Ok (Qtrunc q).
Proof.
  unfold float_value, PyFloat.int, Qtrunc, Qround.Qfloor.
  destruct (Prim2SF x) as [s0 | s0 | | s m e]; try discriminate.
  - intros H. injection H as <-. reflexivity.
  - intros H. injection H as <-. f_equal.
    destruct e as [| p | p]; destruct s; cbn [QArith_base.Qnum QArith_base.Qopp].
    + cbn. now rewrite Pos.mul_1_r, Z.div_1_r.
    + cbn. now rewrite Pos.mul_1_r, Z.div_1_r.
    + rewrite Z.shiftl_mul_pow2 by lia.
      assert (Hp : (0 < 2 ^ Zpos p)%Z) by (apply Z.pow_pos_nonneg; lia).
      destruct (Z.leb_spec 0 (Zneg m * 2 ^ Zpos p)) as [Hle | Hlt]; [lia |].
      cbn [QArith_base.Qnum QArith_base.Qden]. rewrite Z.div_1_r. lia.
    + rewrite Z.shiftl_mul_pow2 by lia.
      assert (Hp : (0 < 2 ^ Zpos p)%Z) by (apply Z.pow_pos_nonneg; lia).
      destruct (Z.leb_spec 0 (Zpos m * 2 ^ Zpos p)) as [Hle | Hlt]; [| lia].
      now rewrite Z.div_1_r.
    + rewrite Z.shiftl_div_pow2 by lia. cbn [Z.opp Z.leb Z.compare].
      cbn [QArith_base.Qnum QArith_base.Qden Z.opp].
      now rewrite Pos2Z.inj_pow.
    + rewrite Z.shiftl_div_pow2 by lia. cbn [Z.opp Z.leb Z.compare].
      now rewrite Pos2Z.inj_pow.
Qed.

Lemma is_finite_value (x : float) :
  is_finite x = true -> exists q, float_value x = Some q.
Proof.
  unfold is_finite, float_value.
  destruct (Prim2SF x); intros H; try discriminate H; eauto.
Qed.

(** [Qtrunc] does not round: its value is the integer next to the
    fraction on the side of zero. *)
Lemma Qtrunc_toward_zero (q : QArith_base.Q) :
  ((0 <= QArith_base.Qnum q)%Z ->
   QArith_base.Qle (QArith_base.inject_Z (Qtrunc q)) q /\
   QArith_base.Qlt q (QArith_base.inject_Z (Qtrunc q + 1)) /\ (0 <= Qtrunc q)%Z) /\
  ((QArith_base.Qnum q < 0)%Z ->
   QArith_base.Qle q (QArith_base.inject_Z (Qtrunc q)) /\
   QArith_base.Qlt (QArith_base.inject_Z (Qtrunc q - 1)) q /\ (Qtrunc q <= 0)%Z).
Proof.
  unfold Qtrunc. split; intros H.
  - destruct (Z.leb_spec 0 (QArith_base.Qnum q)) as [_ | ?]; [| lia].
    repeat split.
    + apply Qround.Qfloor_le.
    + apply Qround.Qlt_floor.
    + destruct q as [n d]. cbn in *. apply Z.div_pos; lia.
  - destruct (Z.leb_spec 0 (QArith_base.Qnum q)) as [? | _]; [lia |].
    pose proof (Qround.Qfloor_le (QArith_base.Qopp q)) as H1.
    pose proof (Qround.Qlt_floor (QArith_base.Qopp q)) as H2.
    destruct q as [n d]. unfold Qround.Qfloor, QArith_base.Qopp,
      QArith_base.Qle, QArith_base.Qlt, QArith_base.inject_Z in *.
    cbn [QArith_base.Qnum QArith_base.Qden] in *.
    assert (H3 : (0 <= - n / Zpos d)%Z) by (apply Z.div_pos; lia).
    repeat split; lia.
Qed.

(** C6, amended: for every rectangle whose four bounds top,
    top+height, left and left+width are finite, [box_to_slice] truncates
    toward zero (it does not round) the top and the left coordinate, and
    truncates the sums top+height and left+width, not the height and the
    width on their own; when the four truncated bounds are not negative,
    the sub-array selected is rows [trunc(top), trunc(top+height)) and
    columns [trunc(left), trunc(left+width)) of the frame, cut at its
    edges. *)
Theorem box_to_slice_selects (b : box) :
  box_finite b = true ->
  exists qt qtb ql qlr,
    float_value (top b) = Some qt /\
    float_value (top b + height b) = Some qtb /\
    float_value (left b) = Some ql /\
    float_value (left b + width b) = Some qlr /\
    box_to_slice b
    = Ok (mkSlice (Some (Qtrunc qt)) (Some (Qtrunc qtb)),
          mkSlice (Some (Qtrunc ql)) (Some (Qtrunc qlr))) /\
    forall (A : Type) (f : frame A) (r c : nat),
      (0 <= Qtrunc qt)%Z -> (0 <= Qtrunc qtb)%Z ->
      (0 <= Qtrunc ql)%Z -> (0 <= Qtrunc qlr)%Z ->
      pixel (index2 (mkSlice (Some (Qtrunc qt)) (Some (Qtrunc qtb)),
                     mkSlice (Some (Qtrunc ql)) (Some (Qtrunc qlr))) f) r c
      = if (Z.of_nat r <? Qtrunc qtb - Qtrunc qt)%Z
           && (Z.of_nat c <? Qtrunc qlr - Qtrunc ql)%Z
        then pixel f (Z.to_nat (Qtrunc qt) + r) (Z.to_nat (Qtrunc ql) + c)
        else None.
Proof.
  unfold box_finite. intros H.
  apply andb_prop in H as [H H4]. apply andb_prop in H as [H H3].
  apply andb_prop in H as [H1 H2].
  destruct (is_finite_value _ H1) as [qt Et], (is_finite_value _ H2) as [qtb Etb],
    (is_finite_value _ H3) as [ql El], (is_finite_value _ H4) as [qlr Elr].
  exists qt, qtb, ql, qlr. repeat split; try assumption.
  - unfold box_to_slice.
    rewrite (int_is_truncation _ Et), (int_is_truncation _ Etb),
      (int_is_truncation _ El), (int_is_truncation _ Elr).
    reflexivity.
  - intros A f r c Pt Ptb Pl Plr. now apply pixel_index2.
Qed.

Lemma box_to_slice_selects_witness :
  box_to_slice (mkBox 10.5 100.5 30.5 50.5)
  = Ok (mkSlice (Some 100%Z) (Some 151%Z), mkSlice (Some 10%Z) (Some 41%Z)) /\
  box_to_slice (mkBox (-0.5) (-1.5) 3 3)
  = Ok (mkSlice (Some (-1)%Z) (Some 1%Z), mkSlice (Some 0%Z) (Some 2%Z)).
Proof.
  split.
  - destruct (box_to_slice_selects (mkBox 10.5 100.5 30.5 50.5) eq_refl)
      as (qt & qtb & ql & qlr & Et & Etb & El & Elr & H & _).
    vm_compute in Et, Etb, El, Elr.
    injection Et as <-. injection Etb as <-. injection El as <-. injection Elr as <-.
    exact H.
  - destruct (box_to_slice_selects (mkBox (-0.5) (-1.5) 3 3) eq_refl)
      as (qt & qtb & ql & qlr & Et & Etb & El & Elr & H & _).
    vm_compute in Et, Etb, El, Elr.
    injection Et as <-. injection Etb as <-. injection El as <-. injection Elr as <-.
    exact H.
Defined.

(* ================================================================= *)
(** ** The order of the regions *)

Section SessionOrder.

Variables V A handle : Type.
Variable trk_init : V -> box -> result handle.
Variable trk_update : handle -> V -> box -> result (bool * box * handle).

(** The multi-tracker updates its entries one by one, in place. *)
Lemma MultiTracker_update_entries (mt : MultiTracker handle) (vis : V) succ rois mt' :
  MultiTracker_update trk_update mt vis = Ok (succ, rois, mt') ->
  Forall2 (fun e e' => exists found,
               trk_update (fst e) vis (snd e) = Ok (found, snd e', fst e')) mt mt'.
Proof.
  revert succ rois mt'. induction mt as [| [h b] mt IH]; intros succ rois mt' H.
  - cbn in H. injection H as <- <- <-. constructor.
  - cbn [MultiTracker_update] in H.
    apply bind_ok in H as ([[found b'] h'] & Hu & H).
    apply bind_ok in H as ([[succ0 boxes] mt0] & Hrec & H).
    injection H as <- <- <-.
    constructor; [exists found; exact Hu | exact (IH _ _ _ Hrec)].
Qed.

Lemma lineage_after_update (seeds : list box) (mt mt' : MultiTracker handle) (vis : V) :
  Forall2 (lineage trk_init trk_update) seeds mt ->
  Forall2 (fun e e' => exists found,
               trk_update (fst e) vis (snd e) = Ok (found, snd e', fst e')) mt mt' ->
  Forall2 (lineage trk_init trk_update) seeds mt'.
Proof.
  intros H. revert mt'. induction H as [| seed [h b] seeds mt Hl _ IH]; intros mt' H'.
  - inversion H'. constructor.
  - inversion H' as [| e [h' b'] mt0 mt1 [found Hu] Hrest]; subst.
    constructor; [| apply IH; exact Hrest].
    cbn [fst snd] in Hu. eapply lineage_step; eassumption.
Qed.

(** Throughout a session the entry at each position descends from the
    seed at that position. *)
Lemma session_lineage (seeds : list box) (t : tracker A handle) :
  session_of trk_init trk_update seeds t ->
  Forall2 (lineage trk_init trk_update) seeds (tracker_multi t).
Proof.
  induction 1 as [init_vis agg spread t H | t vis infra out t' out' res _ IH H].
  - unfold tracker_init in H. apply bind_ok in H as (mt & Hmt & H).
    injection H as <-. cbn [tracker_multi].
    apply add_all_entries in Hmt as (added & -> & Hall). cbn [app].
    induction Hall as [| roi [h b] rois added [Hh Hb] _ IHall]; constructor.
    + cbn [fst snd] in Hh, Hb. subst b. eapply lineage_init. exact Hh.
    + exact IHall.
  - unfold tracker_update in H.
    apply bind_ok in H as ([[succ rois] mt] & Hu & H).
    apply MultiTracker_update_entries in Hu.
    assert (Ht' : tracker_multi t' = mt).
    { destruct (spread_func t).
      - cbv zeta in H. apply bind_ok in H as ([a s] & _ & H). now injection H as <-.
      - apply bind_ok in H as (a & _ & H). now injection H as <-. }
    rewrite Ht'. eapply lineage_after_update; eassumption.
Qed.

(** C5: in a session built on a list of seed rectangles, every call of
    [update] that returns gives as many rectangles as there are seeds,
    in the order of the seed list: the rectangle at each position is the
    rectangle of the tracker that was created for the seed at that
    position, as its own updates have moved it; and it gives as many
    aggregates, and as many spreads when a spread function is set.  The
    success flag plays no part. *)
Theorem update_keeps_regions (seeds : list box) (t : tracker A handle)
  vis infra out t' out' rois aggs sp :
  session_of trk_init trk_update seeds t ->
  tracker_update trk_update t vis infra out = Ok (t', out', (rois, aggs, sp)) ->
  List.length rois = List.length seeds /\
  Forall2 (fun seed roi => exists h, lineage trk_init trk_update seed (h, roi))
    seeds rois /\
  Forall2 (tracked trk_update vis) (tracker_multi t) rois /\
  List.length aggs = List.length seeds /\
  match sp with
  | Some spreads => spread_func t <> None /\ List.length spreads = List.length seeds
  | None => spread_func t = None
  end.
Proof.
  intros Hs Hu.
  assert (Hs' : session_of trk_init trk_update seeds t')
    by (eapply session_step; eassumption).
  apply session_lineage in Hs'.
  pose proof (session_regions Hs) as Hlen.
  apply tracker_update_shape in Hu as (L1 & L2 & L3 & L4 & L5 & _).
  split; [congruence |]. split.
  - rewrite <- L4. clear - Hs'.
    induction Hs' as [| seed [h b] seeds mt Hl _ IH]; cbn [map snd]; constructor.
    + exists h. exact Hl.
    + exact IH.
  - split; [exact L5 |]. split; [congruence |].
    destruct sp as [spreads |]; [| exact L3].
    destruct L3 as [N L3]. split; [exact N | congruence].
Qed.

End SessionOrder.

(** C5 on the driver's two seeds, with a tracker that moves both
    rectangles and says it has lost them. *)
Lemma update_keeps_regions_witness :
  let f : frame nat := [[1; 2]; [3; 4]] in
  exists t t' out',
    tracker_init Demo.steady_init rois0 f Demo.median5 (Some Demo.std2) = Ok t /\
    tracker_update Demo.drift_update t f f []
    = Ok (t', out', ([mkBox 11 100 30 50; mkBox 101 100 50 30],
                     [5; 5]%float, Some [2; 2]%float)) /\
    Forall2 (fun seed roi => exists h,
                 lineage Demo.steady_init Demo.drift_update seed (h, roi))
      rois0 [mkBox 11 100 30 50; mkBox 101 100 50 30].
Proof.
  intros f.
  pose (t := mkTracker [(tt, mkBox 10 100 30 50); (tt, mkBox 100 100 50 30)]
               Demo.median5 (Some Demo.std2)).
  pose (t' := mkTracker [(tt, mkBox 11 100 30 50); (tt, mkBox 101 100 50 30)]
                Demo.median5 (Some Demo.std2)).
  assert (Hinit : tracker_init Demo.steady_init rois0 f Demo.median5 (Some Demo.std2)
                  = Ok t) by reflexivity.
  assert (Hup : tracker_update Demo.drift_update t f f []
                = Ok (t', [warning], ([mkBox 11 100 30 50; mkBox 101 100 50 30],
                                      [5; 5]%float, Some [2; 2]%float)))
    by reflexivity.
  assert (Hs : session_of Demo.steady_init Demo.drift_update rois0 t)
    by (eapply session_start; exact Hinit).
  exists t, t', [warning]. split; [exact Hinit |]. split; [exact Hup |].
  exact (proj1 (proj2 (@update_keeps_regions _ _ _ _ _ _ _ _ _ _ _ _ _ _ _ Hs Hup))).
Defined.

(* ================================================================= *)
(** ** A frame with a lost region *)


Section LostRegion.

Variable A : Type.
Variable handle : Type.
Variable trk_update : handle -> frame A -> box -> result (bool * box * handle).
Variable float_repr : float -> string.
Variable linesep : string.



(** X18: what the driver leaves in [Output.json], by the size of the
    line end.  The serialised records are the texts of the records of
    frames 1, 2, ... in order, and the last of them is an object, closed
    by a brace.  With a line end of two bytes the file is "[", every
    record but the last followed by a comma and a line end, the last
    record whole, and "]": no comma comes after the last record.  With
    a line end of one byte the file is the same except that the last
    record has lost its last character, the closing brace. *)
Theorem output_by_line_end (trk_init : frame A -> box -> result handle)
  (np_median np_std : frame A -> float)
  (n : nat) (video : list (frame A)) (final : loop_state A handle) :
  main_for trk_init trk_update np_median np_std float_repr linesep (S n) video = Ok final ->
  exists records texts body,
    List.length records = S n /\ List.length texts = n /\
    run_records float_repr 0 records (texts ++ [("{" ++ body ++ "}")%string])%list /\
    (String.length linesep = 2 ->
     output_json final
     = "[" ++ records_text linesep texts
       ++ translate_newlines linesep ("{" ++ body ++ "}") ++ "]") /\
    (linesep = LF ->
     output_json final = "[" ++ records_text LF texts ++ "{" ++ body ++ "]").
Proof.
  intros H.
  apply main_for_output in H as (records & texts & Hlen & Hrec & _ & _ & Ho).
  assert (Htexts : List.length texts = S n).
  { rewrite <- Hlen. symmetry. eapply Forall2_length. exact (proj1 Hrec). }
  destruct (exists_last (l := texts)) as (texts' & t & ->);
    [intros ->; discriminate Htexts |].
  assert (Ht : exists body, t = "{" ++ body ++ "}").
  { destruct Hrec as [Hall _].
    apply Forall2_app_inv_r in Hall as (r1 & r2 & _ & Hlast & _).
    inversion Hlast as [| d t0 r2' l2' Hd Hnil]; subst.
    eapply dumps_dict_braces. exact Hd. }
  destruct Ht as [body ->].
  exists records, texts', body.
  split; [exact Hlen |]. split; [rewrite length_app in Htexts; cbn in Htexts; lia |].
  split; [exact Hrec |].
  rewrite records_text_app in Ho. cbn [records_text] in Ho.
  rewrite append_nil_r in Ho. split.
  - intros Hsep. rewrite Ho.
    replace ("[" ++ records_text linesep texts'
             ++ translate_newlines linesep ("{" ++ body ++ "}") ++ "," ++ linesep)
      with (("[" ++ records_text linesep texts'
             ++ translate_newlines linesep ("{" ++ body ++ "}"))
            ++ ("," ++ linesep))
      by (rewrite !append_assoc; reflexivity).
    replace 3 with (String.length ("," ++ linesep)) by (cbn; now rewrite Hsep).
    rewrite substring_drop_end.
    rewrite !append_assoc. reflexivity.
  - intros E. rewrite E in Ho. rewrite Ho.
    rewrite translate_newlines_posix.
    replace ("[" ++ records_text LF texts' ++ ("{" ++ body ++ "}") ++ "," ++ LF)
      with (("[" ++ records_text LF texts' ++ "{" ++ body) ++ ("}" ++ "," ++ LF))
      by (rewrite !append_assoc; reflexivity).
    change 3 with (String.length ("}" ++ "," ++ LF)).
    rewrite substring_drop_end.
    rewrite !append_assoc. reflexivity.
Qed.

End LostRegion.


Lemma output_by_line_end_witness :
  exists final records texts body,
    main_for Demo.steady_init Demo.steady_update Demo.median5 Demo.std2
      float_repr_integral LF 2 (Demo.video 3) = Ok final /\
    List.length records = 2 /\ List.length texts = 1 /\
    run_records float_repr_integral 0 records (texts ++ [("{" ++ body ++ "}")%string])%list /\
    output_json final = "[" ++ records_text LF texts ++ "{" ++ body ++ "]".
Proof.
  destruct (main_for Demo.steady_init Demo.steady_update Demo.median5 Demo.std2
              float_repr_integral LF 2 (Demo.video 3)) as [final | e] eqn:E.
  - destruct (@output_by_line_end _ _ _ _ _ _ _ _ _ _ _ E)
      as (records & texts & body & H1 & H2 & H3 & _ & H4).
    exists final, records, texts, body. repeat split; try assumption.
    + exact (proj1 H3).
    + exact (proj2 H3).
    + exact (H4 eq_refl).
  - vm_compute in E. discriminate E.
Defined.
